(** * ArXiv data processing: a shallow embedding of [arxiv_processing.ipynb]

    The notebook turns the flat arXiv metadata table into five relational
    tables (Submission, Category, Author, Submission-Author and
    Submission-Category).  The cells are embedded one by one: Python strings
    are [string], lists are [list], the data frame is a list of rows, a cell
    that can be missing is an [option], a Python [set] is a [gset], a [dict]
    is a [gmap], and an exception raised inside a cell is the [Raise] case
    of [result]. *)

From Stdlib Require Import ZArith Ascii String DecimalString.
From stdpp Require Import gmap strings list fin_maps.

Local Open Scope string_scope.
Local Open Scope Z_scope.
Local Open Scope list_scope.

(** ** Python exceptions and the error monad *)

Inductive error : Type :=
  | IndexError     (* sequence index out of range *)
  | TypeError      (* 'float' object is not subscriptable *)
  | KeyError       (* dict lookup of an absent key *)
  | ValueError     (* a sample larger than the frame; a mask with a
                      missing value *)
  | EmptyDataError (* read_csv found no column in the file *)
  | ParserError.   (* dateutil could not read the timestamp *)

Inductive result (A : Type) : Type :=
  | Ok (a : A)
  | Raise (e : error).
Arguments Ok {A} a.
Arguments Raise {A} e.

#[export] Instance result_ret : MRet result := @Ok.
#[export] Instance result_bind : MBind result := λ A B k m,
  match m with
  | Ok a => k a
  | Raise e => Raise e
  end.

(** [Series.apply f] and list comprehensions: the elements are visited in
    order and the first exception ends the whole evaluation. *)
Fixpoint series_apply {A B} (f : A → result B) (l : list A) : result (list B) :=
  match l with
  | [] => Ok []
  | x :: l' => y ← f x; ys ← series_apply f l'; Ok (y :: ys)
  end.

(** ** Python string primitives *)

Module Py.

(** [s.split(sep)] for a one-character separator: empty fields are kept,
    and the empty string splits into one empty field. *)
Fixpoint split (sep : ascii) (s : string) : list string :=
  match s with
  | EmptyString => [EmptyString]
  | String c s' =>
      if Ascii.eqb c sep then EmptyString :: split sep s'
      else match split sep s' with
           | t :: ts => String c t :: ts
           | [] => [String c EmptyString]
           end
  end.

(** [s.find(c)]: index of the first occurrence, or -1. *)
Fixpoint find (c : ascii) (s : string) : Z :=
  match s with
  | EmptyString => -1
  | String a s' =>
      if Ascii.eqb a c then 0
      else let r := find c s' in if r <? 0 then -1 else r + 1
  end.

Fixpoint take (n : nat) (s : string) : string :=
  match n, s with
  | S n', String a s' => String a (take n' s')
  | _, _ => EmptyString
  end.

Fixpoint drop (n : nat) (s : string) : string :=
  match n, s with
  | S n', String _ s' => drop n' s'
  | _, _ => s
  end.

(** [s[:k]]: a negative bound counts from the end of the string. *)
Definition slice_to (s : string) (k : Z) : string :=
  if k <? 0 then take (Z.to_nat (Z.of_nat (String.length s) + k)) s
  else take (Z.to_nat k) s.

(** [s[k:]] for a non-negative literal bound. *)
Definition slice_from (s : string) (k : nat) : string := drop k s.

(** [s.startswith(p)]. *)
Fixpoint startswith (p s : string) : bool :=
  match p, s with
  | EmptyString, _ => true
  | String a p', String b s' => Ascii.eqb a b && startswith p' s'
  | String _ _, EmptyString => false
  end.

End Py.

(** ** The raw table *)

(** One entry of the [versions] list, a dict with the keys ['version'],
    ['created'] and ['size'] (the last one is [rev_size] here, [size] being
    the cardinality of a finite set). *)
Record revision : Type := {
  version : string;
  created : string;
  rev_size : string
}.

(** One row of [arxiv_math]: the fourteen columns of the dataset.  Columns
    that the data frame reports with missing values are optional.  The
    column ['id'] is [arxiv_id], the name the join tables give it.  The
    columns [versions] and [authors_parsed] hold the lists their texts
    evaluate to, as they do once the cells have applied [eval] to them. *)
Record record : Type := {
  arxiv_id : string;
  submitter : option string;
  authors : string;
  title : string;
  comments : option string;
  journal_ref : option string;
  doi : option string;
  report_no : option string;
  categories : string;
  license : option string;
  abstract : string;
  versions : list revision;
  update_date : string;
  authors_parsed : list (list string)
}.

(** ** Filtering out the maths submissions *)

Definition isMathCategory (categories : string) : bool :=
  let cats := Py.split " " categories in
  existsb (fun cat => String.eqb (Py.slice_to cat (Py.find "." cat)) "math") cats.

(** The loop of [loadArxivData] with [cols=None]: every document whose
    category string passes the filter is appended to [data]. *)
Definition loadArxivData (catFilter : string → bool) (file : list record)
  : list record :=
  fold_left (fun data doc =>
               if catFilter (categories doc) then data ++ [doc] else data)
            file [].

(** ** Exploding a list-valued column *)

(** [Series.explode]: one cell per element; an empty list leaves one
    missing cell (NaN). *)
Definition explode {B} (col : list (list B)) : list (option B) :=
  flat_map (λ l, match l with [] => [None] | _ => Some <$> l end) col.

(** [DataFrame.explode(column)] on a two-column frame: the key of the row
    is repeated for every element of its list. *)
Definition df_explode {A B} (rows : list (A * list B)) : list (A * option B) :=
  flat_map (λ row, match row.2 with
                   | [] => [(row.1, None)]
                   | l => (λ b, (row.1, Some b)) <$> l
                   end) rows.

(** ** Submission *)

Record date : Type := { year : Z; month : Z; day : Z }.

Record datetime : Type := {
  dt_date : date;
  hour : Z;
  minute : Z;
  second : Z
}.

(** [datetime.date(dt)]: the calendar date, the time of day dropped. *)
Definition datetime_date (dt : datetime) : date := dt_date dt.

Record submission_row : Type := {
  s_arxiv_id : string;
  s_submission_date : date;
  s_title : string;
  s_abstract : string;
  s_journal_ref : Z;
  s_comments : option string
}.

(** [isnull()] of a cell and [astype('int')] of the resulting boolean. *)
Definition isnull {A} (x : option A) : bool :=
  match x with None => true | Some _ => false end.

(** [1 - column.isnull().astype('int')], cell by cell. *)
Definition journal_ref_flag (x : option string) : Z := 1 - Z.b2z (isnull x).

(** [frame.sample(n)]: the rows drawn are only displayed, but a sample
    larger than the frame cannot be drawn. *)
Definition sample {A} (n : nat) (frame : list A) : result unit :=
  if (length frame <? n)%nat then Raise ValueError else Ok tt.

Section Submission.

(** [dateutil.parser.parse] is not part of the notebook: it is a
    parameter, [None] standing for the exception it raises on a string it
    cannot read. *)
Variable parse : string → option datetime.

Definition parser_parse (s : string) : result datetime :=
  match parse s with
  | Some dt => Ok dt
  | None => Raise ParserError
  end.

(** [lambda x : datetime.date(parser.parse(x[0]['created']))]. *)
Definition submission_date (x : list revision) : result date :=
  match x !! 0%nat with
  | None => Raise IndexError
  | Some v => dt ← parser_parse (created v); Ok (datetime_date dt)
  end.

(** The Submission cells: the date column is computed first and five rows
    of the frame are shown, then the journal column is made binary, then
    the six columns are selected. *)
Definition submission (arxiv_math : list record) : result (list submission_row) :=
  dates ← series_apply submission_date (versions <$> arxiv_math);
  _ ← sample 5 arxiv_math;
  let flags := journal_ref_flag <$> (journal_ref <$> arxiv_math) in
  Ok (zip_with (λ r df, {| s_arxiv_id := arxiv_id r;
                           s_submission_date := df.1;
                           s_title := title r;
                           s_abstract := abstract r;
                           s_journal_ref := df.2;
                           s_comments := comments r |})
               arxiv_math (zip dates flags)).

End Submission.

(** ** Category *)

Definition category_dict : list (string * string) :=
  [("AC", "Commutative Algebra");
   ("AG", "Algebraic Geometry");
   ("AP", "Analysis of PDEs");
   ("AT", "Algebraic Topology");
   ("CA", "Classicial Analysis and ODES");
   ("CO", "Combinatorics");
   ("CT", "Category Theory");
   ("CV", "Complex Variables");
   ("DG", "Differential Geometry");
   ("DS", "Dynamical Systems");
   ("FA", "Functional Analysis");
   ("GM", "General Mathematics");
   ("GN", "General Topology");
   ("GR", "Group Theory");
   ("GT", "Geometric Topology");
   ("HO", "History and Overview");
   ("IT", "Information Theory");
   ("KT", "K-Theory and Homology");
   ("LO", "Logic");
   ("MG", "Metric Geometry");
   ("MP", "Mathematical Physics");
   ("NA", "Numerical Analysis");
   ("NT", "Number Theory");
   ("OA", "Operator Algebras");
   ("OC", "Optimization and Control");
   ("PR", "Probability");
   ("QA", "Quantum Algebra");
   ("RA", "Rings and Algebras");
   ("RT", "Representation Theory");
   ("SG", "Symplectic Geometry");
   ("SP", "Spectral Theory");
   ("ST", "Statistics Theory")].

(** The Category table: one row [(category_id, category_name)] per item. *)
Definition category : list (string * string) := category_dict.

(** ** Author *)

(** A parsed author is a list [[surname, given name, suffix]]; a key of the
    registry is the tuple of its first two components. *)
Abbreviation name_key := (list string) (only parsing).

Record author_row : Type := {
  author_id : nat;
  surname : string;
  first_name : string
}.

(** [tuple(x[:2])] on a cell of the exploded column; the missing cell is a
    float, which cannot be sliced. *)
Definition key_of (x : option (list string)) : result name_key :=
  match x with
  | None => Raise TypeError
  | Some a => Ok (take 2 a)
  end.

(** [name[i]] on a tuple. *)
Definition tuple_get (t : name_key) (i : nat) : result string :=
  match t !! i with
  | Some s => Ok s
  | None => Raise IndexError
  end.

(** [dict(pairs)]: the pairs are inserted from left to right, a later pair
    replacing an earlier one with the same key. *)
Definition dict {K V} `{Countable K} (pairs : list (K * V)) : gmap K V :=
  fold_left (λ d kv, <[kv.1 := kv.2]> d) pairs ∅.

(** The order in which Python iterates over a [set] is not fixed by the
    language; the development is parametric in it.  An iteration lists
    every member once. *)
Class SetIteration : Type := {
  iterate : gset name_key → list name_key;
  iterate_NoDup : ∀ X, NoDup (iterate X);
  iterate_elem_of : ∀ X k, k ∈ iterate X ↔ k ∈ X
}.

#[export] Instance elements_iteration : SetIteration := {|
  iterate := elements;
  iterate_NoDup := NoDup_elements;
  iterate_elem_of := λ X k, elem_of_elements X k
|}.

Section Author.

Context `{SetIteration}.

(** [unique_names]: the exploded author column, truncated to keys,
    collected into a set and listed again. *)
Definition unique_names (arxiv_math : list record) : result (list name_key) :=
  let names_list := explode (authors_parsed <$> arxiv_math) in
  keys ← series_apply key_of names_list;
  Ok (iterate (list_to_set keys)).

(** The Author frame: the two name columns, and the index as [author_id]. *)
Definition author (unique_names : list name_key) : result (list author_row) :=
  surnames ← series_apply (λ name, tuple_get name 0) unique_names;
  first_names ← series_apply (λ name, tuple_get name 1) unique_names;
  Ok (imap (λ i sf, {| author_id := i; surname := sf.1; first_name := sf.2 |})
           (zip surnames first_names)).

Definition author_dict (unique_names : list name_key) (author : list author_row)
  : gmap name_key nat :=
  dict (zip unique_names (author_id <$> author)).

(** ** Submission-Author *)

(** [lambda x : author_dict[tuple(x[:2])]]. *)
Definition lookup_author (author_dict : gmap name_key nat)
    (x : option (list string)) : result nat :=
  key ← key_of x;
  match author_dict !! key with
  | Some i => Ok i
  | None => Raise KeyError
  end.

Definition submission_author (author_dict : gmap name_key nat)
    (arxiv_math : list record) : result (list (string * nat)) :=
  let exploded :=
    df_explode ((λ r, (arxiv_id r, authors_parsed r)) <$> arxiv_math) in
  ids ← series_apply (lookup_author author_dict) (exploded.*2);
  Ok (zip (exploded.*1) ids).

End Author.

(** ** Submission-Category *)

(** [.str.startswith('math')] gives a missing value on a missing cell, and
    a mask with a missing value cannot be used to select rows. *)
Definition math_mask (row : string * option string) : result bool :=
  match row.2 with
  | Some cat => Ok (Py.startswith "math" cat)
  | None => Raise ValueError
  end.

Definition submission_category (arxiv_math : list record)
  : result (list (string * string)) :=
  let sc := (λ r, (arxiv_id r, Py.split " " (categories r))) <$> arxiv_math in
  let sc := df_explode sc in
  mask ← series_apply math_mask sc;
  let sc := (List.filter snd (zip sc mask)).*1 in
  ids ← series_apply (λ x, match x with
                           | Some cat => Ok (Py.slice_from cat 5)
                           | None => Raise TypeError
                           end) (sc.*2);
  Ok (zip (sc.*1) ids).

(** ** The whole notebook *)

Record tables : Type := {
  t_submission : list submission_row;
  t_category : list (string * string);
  t_author : list author_row;
  t_submission_author : list (string * nat);
  t_submission_category : list (string * string)
}.

(** *** Saving the filtered frame and reading it back

    The filtered frame is written with [to_csv] and the cells work on what
    [read_csv] reads back.  A frame without a row is written without a
    column, and cannot be read.  A cell that was missing is read as
    missing, and so is a text that the reader takes for a missing value;
    which texts these are belongs to the reader, the empty text is one of
    them.  The other columns of the typed frame hold texts and lists that
    are read back as they were written. *)

Class MissingValues : Type := {
  is_na : string → bool;
  is_na_empty : is_na "" = true
}.

(** The spellings that [read_csv] takes for a missing value when it is
    called without [na_values]. *)
Definition na_values : list string :=
  [""; "#N/A"; "#N/A N/A"; "#NA"; "-1.#IND"; "-1.#QNAN"; "-NaN"; "-nan";
   "1.#IND"; "1.#QNAN"; "<NA>"; "N/A"; "NA"; "NULL"; "NaN"; "None"; "n/a";
   "nan"; "null"].

#[export] Instance default_na : MissingValues := {|
  is_na := λ s, existsb (String.eqb s) na_values;
  is_na_empty := eq_refl
|}.

Definition read_cell `{MissingValues} (x : option string) : option string :=
  match x with
  | Some s => if is_na s then None else Some s
  | None => None
  end.

Definition read_row `{MissingValues} (r : record) : record :=
  {| arxiv_id := arxiv_id r;
     submitter := read_cell (submitter r);
     authors := authors r;
     title := title r;
     comments := read_cell (comments r);
     journal_ref := read_cell (journal_ref r);
     doi := read_cell (doi r);
     report_no := read_cell (report_no r);
     categories := categories r;
     license := read_cell (license r);
     abstract := abstract r;
     versions := versions r;
     update_date := update_date r;
     authors_parsed := authors_parsed r |}.

(** [frame.to_csv(path)] followed by [pd.read_csv(path)]. *)
Definition read_csv `{MissingValues} (frame : list record)
  : result (list record) :=
  match frame with
  | [] => Raise EmptyDataError
  | _ :: _ => Ok (read_row <$> frame)
  end.

(** *** The last cell

    The saved Submission table is read back with every column as text and
    the journal column is derived once more from what is read: the flags
    [0] and [1] are there as the texts of these numbers. *)

Definition flag_text (flag : Z) : string :=
  NilZero.string_of_int (Z.to_int flag).

Definition rederive_journal_ref (submission : list submission_row)
  : list submission_row :=
  (λ row, {| s_arxiv_id := s_arxiv_id row;
             s_submission_date := s_submission_date row;
             s_title := s_title row;
             s_abstract := s_abstract row;
             s_journal_ref :=
               journal_ref_flag (Some (flag_text (s_journal_ref row)));
             s_comments := s_comments row |}) <$> submission.

(** The loop that prints the ids of the first five names:
    [for name in unique_names[:5]: print(name, author_dict[name])]. *)
Definition print_first_ids (author_dict : gmap name_key nat)
    (unique_names : list name_key) : result (list nat) :=
  series_apply (λ name, match author_dict !! name with
                        | Some i => Ok i
                        | None => Raise KeyError
                        end) (take 5 unique_names).

(** The cells in the order of the notebook, from the filtered frame to the
    last cell; an exception in a cell stops the run.  The gender column of
    the Author frame comes from an external classifier and does not touch
    the other columns; it is left out. *)
Definition notebook `{SetIteration} `{MissingValues}
    (parse : string → option datetime) (file : list record) : result tables :=
  arxiv_math ← read_csv (loadArxivData isMathCategory file);
  submission_df ← submission parse arxiv_math;
  names ← unique_names arxiv_math;
  author_df ← author names;
  let d := author_dict names author_df in
  _ ← print_first_ids d names;
  sa ← submission_author d arxiv_math;
  sc ← submission_category arxiv_math;
  Ok {| t_submission := rederive_journal_ref submission_df;
        t_category := category;
        t_author := author_df;
        t_submission_author := sa;
        t_submission_category := sc |}.

(** ** A reader for the timestamps of the dataset

    The [created] strings of the dataset read ["Mon, 2 Apr 2007 19:18:42 GMT"].
    This reader of that one form stands in for the parser when the cells
    are run on concrete rows; the general statements hold for any parser. *)

Module Timestamp.

Definition digit (c : ascii) : option Z :=
  let n := Z.of_N (N_of_ascii c) in
  if (48 <=? n) && (n <=? 57) then Some (n - 48) else None.

Fixpoint decimal_from (acc : Z) (s : string) : option Z :=
  match s with
  | EmptyString => Some acc
  | String c s' => d ← digit c; decimal_from (10 * acc + d) s'
  end.

Definition decimal (s : string) : option Z :=
  match s with
  | EmptyString => None
  | _ => decimal_from 0 s
  end.

Definition months : list (string * Z) :=
  [("Jan", 1); ("Feb", 2); ("Mar", 3); ("Apr", 4); ("May", 5); ("Jun", 6);
   ("Jul", 7); ("Aug", 8); ("Sep", 9); ("Oct", 10); ("Nov", 11); ("Dec", 12)].

Definition month_number (m : string) : option Z :=
  snd <$> List.find (λ p, String.eqb p.1 m) months.

Definition read (s : string) : option datetime :=
  match Py.split " " s with
  | [_; d; m; y; t; _] =>
      match Py.split ":" t with
      | [hh; mm; ss] =>
          d ← decimal d; m ← month_number m; y ← decimal y;
          hh ← decimal hh; mm ← decimal mm; ss ← decimal ss;
          Some {| dt_date := {| year := y; month := m; day := d |};
                  hour := hh; minute := mm; second := ss |}
      | _ => None
      end
  | _ => None
  end.

End Timestamp.

(** ** The loader on documents

    [loadArxivData] before the columns are typed: a document is the dict
    that [json.loads] returns for a line, [cols] is the optional selection
    of columns, and a row is what the loop appends to [data], the document
    itself or the list of the selected cells.  The result is the list
    [data] from which the frame is built. *)

Inductive frame_row (V : Type) : Type :=
  | Whole (doc : gmap string V)
  | Cells (lst : list V).
Arguments Whole {V} doc.
Arguments Cells {V} lst.

Section Loader.

Context {V : Type}.

(** [doc[col]]. *)
Definition doc_get (doc : gmap string V) (col : string) : result V :=
  match doc !! col with
  | Some v => Ok v
  | None => Raise KeyError
  end.

(** The body of the loop: the row is built first ([cols] counts as absent
    when it is [None] or empty), then the category field is tested. *)
Definition load_line (catFilter : V → bool) (cols : option (list string))
    (data : list (frame_row V)) (doc : gmap string V)
  : result (list (frame_row V)) :=
  lst ← match cols with
        | Some (c :: cs) =>
            cells ← series_apply (doc_get doc) (c :: cs); Ok (Cells cells)
        | _ => Ok (Whole doc)
        end;
  cat ← doc_get doc "categories";
  Ok (if catFilter cat then data ++ [lst] else data).

Fixpoint load_lines (catFilter : V → bool) (cols : option (list string))
    (file : list (gmap string V)) (data : list (frame_row V))
  : result (list (frame_row V)) :=
  match file with
  | [] => Ok data
  | doc :: file' =>
      data' ← load_line catFilter cols data doc;
      load_lines catFilter cols file' data'
  end.

Definition loadArxivData_docs (catFilter : V → bool)
    (cols : option (list string)) (file : list (gmap string V))
  : result (list (frame_row V)) :=
  load_lines catFilter cols file [].

(** The columns the loop reads in a document. *)
Definition columns_read (cols : option (list string)) : list string :=
  default [] cols ++ ["categories"].

(** The row of a document that has the columns. *)
Definition row_of (cols : option (list string)) (doc : gmap string V)
  : frame_row V :=
  match cols with
  | Some (c :: cs) => Cells (omap (λ col, doc !! col) (c :: cs))
  | _ => Whole doc
  end.

Definition passes (catFilter : V → bool) (doc : gmap string V) : bool :=
  match doc !! "categories" with
  | Some cat => catFilter cat
  | None => false
  end.

End Loader.

(** ** Genders *)

Record gender_row : Type := {
  g_author_id : nat;
  g_surname : string;
  g_first_name : string;
  gender : string
}.

(** The iteration over the set of first names, in an order that is not
    fixed either. *)
Class TokenIteration : Type := {
  iterate_tokens : gset string → list string;
  iterate_tokens_NoDup : ∀ X, NoDup (iterate_tokens X);
  iterate_tokens_elem_of : ∀ X t, t ∈ iterate_tokens X ↔ t ∈ X
}.

#[export] Instance elements_tokens : TokenIteration := {|
  iterate_tokens := elements;
  iterate_tokens_NoDup := NoDup_elements;
  iterate_tokens_elem_of := λ X t, elem_of_elements X t
|}.

(** [x.split(' ')[0]]. *)
Definition first_token (x : string) : result string :=
  match Py.split " " x !! 0%nat with
  | Some t => Ok t
  | None => Raise IndexError
  end.

(** [gender_dict[name]] on a [defaultdict(lambda : "unknown")]: a key that
    is missing is added with the default value. *)
Definition defaultdict_get (d : gmap string string) (name : string)
  : string * gmap string string :=
  match d !! name with
  | Some g => (g, d)
  | None => ("unknown", <[name := "unknown"]> d)
  end.

Section Genders.

(** [Detector.get_gender] of the gender_guesser package is a parameter. *)
Variable get_gender : string → string.

Context `{TokenIteration}.

(** [[gender_dict[name] for name in names]], the dict passed along. *)
Fixpoint lookup_genders (d : gmap string string) (names : list string)
  : list string * gmap string string :=
  match names with
  | [] => ([], d)
  | name :: names' =>
      let (g, d') := defaultdict_get d name in
      let (gs, d'') := lookup_genders d' names' in
      (g :: gs, d'')
  end.

(** The names the detector is asked about. *)
Definition gender_queries (author : list author_row) : result (list string) :=
  names ← series_apply first_token (first_name <$> author);
  Ok (iterate_tokens (list_to_set names)).

(** The dict filled by the loop over [zip(unique_names2, genders)]. *)
Definition gender_dict (unique_names2 : list string) : gmap string string :=
  fold_left (λ d ng, <[ng.1 := ng.2]> d)
            (zip unique_names2 (get_gender <$> unique_names2)) ∅.

(** The last assignment: whatever is neither [male] nor [female] becomes
    [unknown]. *)
Definition to_unknown (g : string) : string :=
  if negb (String.eqb g "male") && negb (String.eqb g "female")
  then "unknown" else g.

(** The cell that adds the gender column to the Author frame. *)
Definition add_genders (author : list author_row) : result (list gender_row) :=
  names ← series_apply first_token (first_name <$> author);
  let unique_names2 := iterate_tokens (list_to_set names) in
  let genders := (lookup_genders (gender_dict unique_names2) names).1 in
  Ok (zip_with (λ row g, {| g_author_id := author_id row;
                            g_surname := surname row;
                            g_first_name := first_name row;
                            gender := to_unknown g |})
               author genders).

End Genders.

(** ** Notions used to state the properties *)

(** A token [area.subarea] read as the glossary reads it: the area is the
    text before the first dot and the subarea the text after it; a token
    without a dot has no area prefix. *)
Fixpoint area_subarea (t : string) : option (string * string) :=
  match t with
  | EmptyString => None
  | String c t' =>
      if Ascii.eqb c "." then Some (EmptyString, t')
      else (λ p, (String c p.1, p.2)) <$> area_subarea t'
  end.

Definition has_area (area t : string) : bool :=
  match area_subarea t with
  | Some (a, _) => String.eqb a area
  | None => false
  end.

(** A token without a dot that reads [math] once its last character is
    dropped. *)
Definition bare_math (t : string) : bool :=
  match area_subarea t with
  | Some _ => false
  | None => String.eqb (Py.take (String.length t - 1) t) "math"
  end.

(** The category tokens of the records, each with the identifier of its
    record, in order. *)
Definition category_tokens (arxiv_math : list record) : list (string * string) :=
  flat_map (λ r, (λ t, (arxiv_id r, t)) <$> Py.split " " (categories r))
           arxiv_math.

(** The rows the category tokens of one record stand for when only the
    tokens of area [math] count, each reduced to its subarea. *)
Definition math_subareas (r : record) : list (string * string) :=
  omap (λ t, match area_subarea t with
             | Some (a, sub) =>
                 if String.eqb a "math" then Some (arxiv_id r, sub) else None
             | None => None
             end)
       (Py.split " " (categories r)).



(** The first revision of the record exists and its timestamp is read. *)
Definition has_date (parse : string → option datetime) (r : record) : bool :=
  match versions r with
  | v :: _ => bool_decide (is_Some (parse (created v)))
  | [] => false
  end.

Definition first_undated (parse : string → option datetime)
    (arxiv_math : list record) : option record :=
  List.find (λ r, negb (has_date parse r)) arxiv_math.

(** The exception a record without a date makes the date cell raise. *)
Definition date_error (r : record) : error :=
  match versions r with
  | [] => IndexError
  | _ :: _ => ParserError
  end.

(** Every record has an author, and every author a surname and a given
    name. *)
Definition authors_well_formed (arxiv_math : list record) : bool :=
  forallb (λ r, negb (bool_decide (authors_parsed r = []))
                && forallb (λ a, bool_decide (2 ≤ length a)%nat) (authors_parsed r))
          arxiv_math.

(** The keys observed in the author lists of the records. *)
Definition observed (arxiv_math : list record) : gset name_key :=
  list_to_set (take 2 <$> concat (authors_parsed <$> arxiv_math)).

(** The author positions of the records, each as the identifier of its
    record and the parsed author at that position, in order. *)
Definition author_positions (arxiv_math : list record)
  : list (string * list string) :=
  flat_map (λ r, (λ a, (arxiv_id r, a)) <$> authors_parsed r) arxiv_math.

(** ** Sample rows *)

Definition mk_record (i cats : string) (jr : option string)
    (vs : list revision) (aus : list (list string)) : record :=
  {| arxiv_id := i; submitter := None; authors := ""; title := "";
     comments := None; journal_ref := jr; doi := None; report_no := None;
     categories := cats; license := None; abstract := "";
     versions := vs; update_date := ""; authors_parsed := aus |}.

Definition v1 (c : string) : revision :=
  {| version := "v1"; created := c; rev_size := "" |}.

Definition r_0002 : record :=
  mk_record "704.0002" "math.CO cs.DM" None
            [v1 "Mon, 2 Apr 2007 19:18:42 GMT"]
            [["Streinu"; "Ileana"; ""]; ["Theran"; "Louis"; ""]].

Definition r_0004 : record :=
  mk_record "704.0004" "math.CO" (Some "J. Comb. 1 (2007)")
            [v1 "Sat, 31 Mar 2007 03:16:14 GMT"]
            [["Callan"; "David"; ""]; ["Theran"; "Louis"; "Jr"]].

(** A cross-listing with the mathematical physics archive. *)
Definition r_math_ph : record :=
  mk_record "704.0007" "math-ph math.MP" None
            [v1 "Sat, 31 Mar 2007 04:24:59 GMT"]
            [["Smith"; "J."; ""]].

(** A subarea that the enumeration does not list. *)
Definition r_ZZ : record :=
  mk_record "704.0008" "math.ZZ" None
            [v1 "Sat, 31 Mar 2007 05:10:16 GMT"]
            [["Smith"; "J."; ""]; ["Smith"; "J."; "II"]].

(** A bare token of five letters, without a dot. *)
Definition r_maths : record :=
  mk_record "704.0009" "maths" None
            [v1 "Sat, 31 Mar 2007 06:00:00 GMT"]
            [["Doe"; "A."; ""]].

Definition r_no_history : record :=
  mk_record "704.0010" "math.CO" None [] [["Doe"; "A."; ""]].

Definition r_unreadable : record :=
  mk_record "704.0011" "math.CO" None [v1 "the day before yesterday"]
            [["Doe"; "A."; ""]].

Definition r_empty_journal : record :=
  mk_record "704.0012" "math.CO" (Some "")
            [v1 "Sat, 31 Mar 2007 07:00:00 GMT"]
            [["Doe"; "A."; ""]].

Definition r_no_authors : record :=
  mk_record "704.0013" "math.CO" None
            [v1 "Sat, 31 Mar 2007 08:00:00 GMT"] [].

(** Documents as the loader reads them. *)
Definition d_0002 : gmap string string :=
  list_to_map [("id", "704.0002"); ("categories", "math.CO cs.DM");
               ("title", "Sparsity-certifying Graph Decompositions")].

Definition d_0003 : gmap string string :=
  list_to_map [("id", "704.0003"); ("categories", "physics.gen-ph");
               ("title", "The evolution of the Earth-Moon system")].

Definition d_no_title : gmap string string :=
  list_to_map [("id", "704.0005"); ("categories", "physics.gen-ph")].

(** Another order of iteration: the one of [elements], backwards. *)
Definition reversed_iteration : SetIteration := {|
  iterate := λ X, reverse (elements X);
  iterate_NoDup := λ X,
    proj2 (NoDup_Permutation_proper _ _ (reverse_Permutation (elements X)))
          (NoDup_elements X);
  iterate_elem_of := λ X k,
    iff_trans (elem_of_reverse k (elements X)) (elem_of_elements X k)
|}.

(** An author given by a surname alone. *)
Definition r_short_author : record :=
  mk_record "704.0014" "math.CO" None
            [v1 "Sat, 31 Mar 2007 09:00:00 GMT"]
            [["Doe"; "A."; ""]; ["Collaboration"]].

(** Five records that the cells take to the end. *)
Definition frame_sample : list record :=
  [r_0002; r_0004; r_math_ph; r_ZZ; r_maths].

Definition row_sample (i : string) (d : date) (flag : Z) : submission_row :=
  {| s_arxiv_id := i; s_submission_date := d; s_title := "";
     s_abstract := ""; s_journal_ref := flag; s_comments := None |}.

(** The Submission frame of the five records as the Submission cells
    leave it. *)
Definition submission_sample : list submission_row :=
  [ row_sample "704.0002" {| year := 2007; month := 4; day := 2 |} 0;
    row_sample "704.0004" {| year := 2007; month := 3; day := 31 |} 1;
    row_sample "704.0007" {| year := 2007; month := 3; day := 31 |} 0;
    row_sample "704.0008" {| year := 2007; month := 3; day := 31 |} 0;
    row_sample "704.0009" {| year := 2007; month := 3; day := 31 |} 0 ].

(** The tables of the run on the five records, the set listed as
    [elements] lists it. *)
Definition t_sample : tables :=
  {| t_submission :=
       [ row_sample "704.0002" {| year := 2007; month := 4; day := 2 |} 1;
         row_sample "704.0004" {| year := 2007; month := 3; day := 31 |} 1;
         row_sample "704.0007" {| year := 2007; month := 3; day := 31 |} 1;
         row_sample "704.0008" {| year := 2007; month := 3; day := 31 |} 1;
         row_sample "704.0009" {| year := 2007; month := 3; day := 31 |} 1 ];
     t_category := category;
     t_author :=
       [ {| author_id := 0; surname := "Theran"; first_name := "Louis" |};
         {| author_id := 1; surname := "Callan"; first_name := "David" |};
         {| author_id := 2; surname := "Streinu"; first_name := "Ileana" |};
         {| author_id := 3; surname := "Smith"; first_name := "J." |};
         {| author_id := 4; surname := "Doe"; first_name := "A." |} ];
     t_submission_author :=
       [("704.0002", 2%nat); ("704.0002", 0%nat);
        ("704.0004", 1%nat); ("704.0004", 0%nat);
        ("704.0007", 3%nat);
        ("704.0008", 3%nat); ("704.0008", 3%nat);
        ("704.0009", 4%nat)];
     t_submission_category :=
       [("704.0002", "CO"); ("704.0004", "CO");
        ("704.0007", "ph"); ("704.0007", "MP");
        ("704.0008", "ZZ"); ("704.0009", "")] |}.

(** * Properties *)

(** ** Applying a function that may raise *)

Lemma bind_Ok {A B} (a : A) (k : A → result B) : Ok a ≫= k = k a.
Proof. reflexivity. Qed.

Lemma bind_Raise {A B} e (k : A → result B) : Raise e ≫= k = Raise e.
Proof. reflexivity. Qed.

Section SeriesApply.

Context {A B : Type}.
Implicit Types (f : A → result B) (l : list A).

Lemma series_apply_cons f x l :
  series_apply f (x :: l) =
    match f x with
    | Ok y => match series_apply f l with
              | Ok ys => Ok (y :: ys)
              | Raise e => Raise e
              end
    | Raise e => Raise e
    end.
Proof. reflexivity. Qed.

(** Success is pointwise success, in order. *)
Lemma series_apply_Ok f l ys :
  series_apply f l = Ok ys ↔ Forall2 (λ x y, f x = Ok y) l ys.
Proof.
  revert ys; induction l as [|x l IH]; intros ys.
  - split.
    + intros [= <-]. constructor.
    + intros Hall. inversion Hall. reflexivity.
  - rewrite series_apply_cons. split.
    + destruct (f x) as [y|e] eqn:Hx; [|discriminate].
      destruct (series_apply f l) as [zs|e] eqn:Hl; [|discriminate].
      intros [= <-]. constructor; [assumption|]. by apply IH.
    + intros Hall. inversion Hall as [|? y ? zs Hx Hl]; subst.
      rewrite Hx. apply IH in Hl. by rewrite Hl.
Qed.

Lemma series_apply_length f l ys :
  series_apply f l = Ok ys → length ys = length l.
Proof.
  intros Hok. apply series_apply_Ok in Hok.
  symmetry. by eapply Forall2_length.
Qed.

Lemma series_apply_lookup f l ys i x :
  series_apply f l = Ok ys → l !! i = Some x →
  ∃ y, ys !! i = Some y ∧ f x = Ok y.
Proof.
  intros Hok Hi. apply series_apply_Ok in Hok.
  destruct (Forall2_lookup_l _ _ _ _ _ Hok Hi) as (y & Hy & Hf). eauto.
Qed.

(** A function that never raises is mapped over the list. *)
Lemma series_apply_pure f (g : A → B) l :
  (∀ x, x ∈ l → f x = Ok (g x)) → series_apply f l = Ok (g <$> l).
Proof.
  induction l as [|x l IH]; intros Hf; [reflexivity|].
  rewrite series_apply_cons, Hf by left.
  rewrite IH; [reflexivity|]. intros y Hy. apply Hf. by right.
Qed.

Lemma series_apply_fmap {C} f (h : C → A) (l : list C) :
  series_apply f (h <$> l) = series_apply (f ∘ h) l.
Proof.
  induction l as [|x l IH]; [done|].
  rewrite fmap_cons, !series_apply_cons, IH. done.
Qed.

Lemma series_apply_total f l :
  (∀ x, x ∈ l → ∃ y, f x = Ok y) → ∃ ys, series_apply f l = Ok ys.
Proof.
  induction l as [|x l IH]; intros Hf; [by exists []|].
  destruct (Hf x) as [y Hy]; [by left|].
  destruct IH as [ys Hys]; [intros x' Hx'; apply Hf; by right|].
  exists (y :: ys). by rewrite series_apply_cons, Hy, Hys.
Qed.

(** The exception of the run is the one of the first element that raises. *)
Lemma series_apply_first_raise f l1 x l2 e :
  (∀ y, y ∈ l1 → ∃ z, f y = Ok z) → f x = Raise e →
  series_apply f (l1 ++ x :: l2) = Raise e.
Proof.
  induction l1 as [|y l1 IH]; intros Hgood Hx; simpl.
  - change (series_apply f (x :: l2) = Raise e).
    by rewrite series_apply_cons, Hx.
  - change (series_apply f (y :: (l1 ++ x :: l2)) = Raise e).
    rewrite series_apply_cons.
    destruct (Hgood y) as [z ->]; [by left|].
    rewrite IH; [reflexivity| |assumption].
    intros y' Hy'. apply Hgood. by right.
Qed.

(** Whatever is raised was raised by some element. *)
Lemma series_apply_Raise f l e :
  series_apply f l = Raise e → ∃ x, x ∈ l ∧ f x = Raise e.
Proof.
  induction l as [|x l IH]; [discriminate|].
  rewrite series_apply_cons.
  destruct (f x) as [y|e'] eqn:Hx.
  - destruct (series_apply f l) as [ys|e'] eqn:Hl; [discriminate|].
    intros [= ->]. destruct IH as (x' & Hin & Hx'); [reflexivity|].
    exists x'. split; [by right|assumption].
  - intros [= ->]. exists x. split; [by left|assumption].
Qed.

(** An element that raises makes the run raise. *)
Lemma series_apply_elem_raise f l x e :
  x ∈ l → f x = Raise e → ∃ e', series_apply f l = Raise e'.
Proof.
  intros Hin Hx. destruct (series_apply f l) as [ys|e'] eqn:Hl; [|eauto].
  apply list_elem_of_lookup in Hin as [i Hi].
  destruct (series_apply_lookup _ _ _ _ _ Hl Hi) as (y & _ & Hy). congruence.
Qed.

End SeriesApply.
(** ** Submission: dates and the journal flag *)

Section SubmissionFacts.

Variable parse : string → option datetime.

Lemma submission_date_nil : submission_date parse [] = Raise IndexError.
Proof. reflexivity. Qed.

Lemma submission_date_cons v vs :
  submission_date parse (v :: vs) =
    match parse (created v) with
    | Some dt => Ok (datetime_date dt)
    | None => Raise ParserError
    end.
Proof.
  unfold submission_date, parser_parse. simpl.
  by destruct (parse (created v)).
Qed.

Lemma has_date_true r :
  has_date parse r = true →
  ∃ d, submission_date parse (versions r) = Ok d.
Proof.
  unfold has_date. destruct (versions r) as [|v vs]; [discriminate|].
  intros Hsome. apply bool_decide_eq_true in Hsome as [dt Hdt].
  rewrite submission_date_cons, Hdt. eauto.
Qed.

Lemma has_date_false r :
  has_date parse r = false →
  submission_date parse (versions r) = Raise (date_error r).
Proof.
  unfold has_date, date_error. destruct (versions r) as [|v vs]; [done|].
  intros Hnone. apply bool_decide_eq_false in Hnone.
  rewrite submission_date_cons.
  destruct (parse (created v)) as [dt|]; [|done].
  exfalso. apply Hnone. eauto.
Qed.

(** Row [i] of the Submission frame is built from record [i]. *)
Lemma submission_lookup rs tbl i r :
  submission parse rs = Ok tbl → rs !! i = Some r →
  ∃ d, submission_date parse (versions r) = Ok d ∧
       tbl !! i = Some {| s_arxiv_id := arxiv_id r;
                          s_submission_date := d;
                          s_title := title r;
                          s_abstract := abstract r;
                          s_journal_ref := journal_ref_flag (journal_ref r);
                          s_comments := comments r |}.
Proof.
  unfold submission. intros Hrun Hi.
  destruct (series_apply (submission_date parse) (versions <$> rs))
    as [dates|e] eqn:Hdates; [|discriminate].
  rewrite bind_Ok in Hrun.
  destruct (sample 5 rs) as [[]|e]; [|discriminate].
  injection Hrun as <-.
  assert ((versions <$> rs) !! i = Some (versions r)) as Hv
    by (by rewrite list_lookup_fmap, Hi).
  destruct (series_apply_lookup _ _ _ _ _ Hdates Hv) as (d & Hd & Hf).
  exists d. split; [assumption|].
  rewrite lookup_zip_with, Hi. simpl.
  rewrite lookup_zip_with, Hd. simpl.
  by rewrite !list_lookup_fmap, Hi.
Qed.

Lemma submission_length rs tbl :
  submission parse rs = Ok tbl → length tbl = length rs.
Proof.
  unfold submission. intros Hrun.
  destruct (series_apply (submission_date parse) (versions <$> rs))
    as [dates|e] eqn:Hdates; [|discriminate].
  rewrite bind_Ok in Hrun.
  destruct (sample 5 rs) as [[]|e]; [|discriminate].
  injection Hrun as <-. apply series_apply_length in Hdates.
  rewrite length_fmap in Hdates.
  rewrite length_zip_with, length_zip_with, !length_fmap. lia.
Qed.

Lemma submission_ids rs tbl :
  submission parse rs = Ok tbl → s_arxiv_id <$> tbl = arxiv_id <$> rs.
Proof.
  intros Hrun. apply list_eq. intros i. rewrite !list_lookup_fmap.
  destruct (rs !! i) as [r|] eqn:Hi.
  - destruct (submission_lookup _ _ _ _ Hrun Hi) as (d & _ & ->). done.
  - apply lookup_ge_None in Hi. apply submission_length in Hrun.
    rewrite (proj2 (lookup_ge_None tbl i)); [done|lia].
Qed.

Lemma first_undated_None rs :
  first_undated parse rs = None → ∀ r, r ∈ rs → has_date parse r = true.
Proof.
  unfold first_undated. intros Hnone r Hin.
  apply list_elem_of_In in Hin.
  pose proof (find_none _ _ Hnone r Hin) as Hr. simpl in Hr.
  by destruct (has_date parse r).
Qed.

Lemma first_undated_Some rs r :
  first_undated parse rs = Some r →
  ∃ l1 l2, rs = l1 ++ r :: l2 ∧ has_date parse r = false ∧
           ∀ r', r' ∈ l1 → has_date parse r' = true.
Proof.
  unfold first_undated. induction rs as [|r0 rs IH]; [discriminate|].
  simpl. destruct (has_date parse r0) eqn:Hr0; simpl.
  - intros Hfind. destruct (IH Hfind) as (l1 & l2 & -> & Hr & Hl1).
    exists (r0 :: l1), l2. split_and!; [done|done|].
    intros r' [->|Hin]%elem_of_cons; auto.
  - intros [= <-]. exists [], rs. split_and!; [done|done|].
    intros r' Hin. by apply elem_of_nil in Hin.
Qed.

End SubmissionFacts.
(** C1. When the Submission cells succeed, the row of every record with a
    non-empty revision history carries, as [submission_date], the calendar
    date (the time of day dropped) of the timestamp parsed from the
    ['created'] entry of its first revision. *)
Theorem submission_date_is_first_created parse rs tbl i r v vs :
  submission parse rs = Ok tbl →
  rs !! i = Some r →
  versions r = v :: vs →
  ∃ dt row, parse (created v) = Some dt ∧
            tbl !! i = Some row ∧
            s_arxiv_id row = arxiv_id r ∧
            s_submission_date row = datetime_date dt.
Proof.
  intros Hrun Hi Hv.
  destruct (submission_lookup _ _ _ _ _ Hrun Hi) as (d & Hd & Hrow).
  rewrite Hv, submission_date_cons in Hd.
  destruct (parse (created v)) as [dt|]; [|discriminate].
  injection Hd as <-. exists dt. eexists.
  split_and!; [reflexivity|exact Hrow|reflexivity|reflexivity].
Qed.

Lemma submission_date_is_first_created_witness :
  ∃ dt row,
    Timestamp.read "Mon, 2 Apr 2007 19:18:42 GMT" = Some dt ∧
    submission_sample !! 0%nat = Some row ∧
    s_arxiv_id row = "704.0002" ∧
    s_submission_date row = datetime_date dt.
Proof.
  apply (submission_date_is_first_created Timestamp.read frame_sample
           submission_sample 0%nat r_0002
           (v1 "Mon, 2 Apr 2007 19:18:42 GMT") []);
    reflexivity.
Defined.

(** When every record has a date the date column is computed. *)
Lemma dated_dates parse rs :
  first_undated parse rs = None →
  ∃ dates, series_apply (submission_date parse) (versions <$> rs) = Ok dates.
Proof.
  intros Hnone. pose proof (first_undated_None _ _ Hnone) as Hall.
  apply series_apply_total.
  intros vs (r & -> & Hin)%list_elem_of_fmap. apply has_date_true. auto.
Qed.

(** C4 (as the code has it). The date cell has no recovery: if some
    record has no first revision whose timestamp is read, the cell raises
    the exception of the first such record ([IndexError] for an empty
    history, [ParserError] for an unreadable timestamp) and no frame is
    produced.  If every record has one, the cell shows five rows of the
    frame, which raises [ValueError] on a frame of fewer than five rows;
    on a frame of five rows or more the Submission frame is produced with
    one row per record, in order. *)
Theorem submission_all_or_nothing parse rs :
  match first_undated parse rs with
  | Some r => submission parse rs = Raise (date_error r)
  | None =>
      if (length rs <? 5)%nat then submission parse rs = Raise ValueError
      else ∃ tbl, submission parse rs = Ok tbl ∧
                  s_arxiv_id <$> tbl = arxiv_id <$> rs
  end.
Proof.
  destruct (first_undated parse rs) as [r|] eqn:Hfirst.
  - apply first_undated_Some in Hfirst as (l1 & l2 & -> & Hr & Hl1).
    unfold submission.
    rewrite (fmap_app versions), (fmap_cons versions).
    rewrite (series_apply_first_raise _ _ _ _ (date_error r)); [done| |].
    + intros vs (r' & -> & Hin)%list_elem_of_fmap.
      apply has_date_true. auto.
    + by apply has_date_false.
  - destruct (dated_dates _ _ Hfirst) as [dates Hdates].
    destruct (length rs <? 5)%nat eqn:Hsize.
    + unfold submission, sample. by rewrite Hdates, bind_Ok, Hsize.
    + destruct (submission parse rs) as [tbl|e] eqn:Hrun.
      * exists tbl. split; [done|]. by eapply submission_ids.
      * exfalso. unfold submission, sample in Hrun.
        rewrite Hdates, bind_Ok, Hsize in Hrun. discriminate.
Qed.

(** An exception of the Submission cells is the outcome of the notebook. *)
Lemma notebook_stops_at_submission `{SetIteration} `{MissingValues}
    parse file arxiv_math e :
  read_csv (loadArxivData isMathCategory file) = Ok arxiv_math →
  submission parse arxiv_math = Raise e →
  notebook parse file = Raise e.
Proof. unfold notebook. intros -> Hrun. by rewrite bind_Ok, Hrun. Qed.

(** C4, refuted as stated: one record without a revision, or with an
    unreadable first timestamp, stops the run; the other records get no
    Submission frame, be they two or five. *)
Lemma undated_record_stops_the_run :
  notebook Timestamp.read [r_0002; r_no_history; r_0004] = Raise IndexError ∧
  notebook Timestamp.read [r_0002; r_unreadable; r_0004] = Raise ParserError ∧
  (¬ ∃ t, notebook Timestamp.read [r_0002; r_no_history; r_0004] = Ok t ∧
          s_arxiv_id <$> t_submission t = ["704.0002"; "704.0004"]) ∧
  notebook Timestamp.read (frame_sample ++ [r_no_history]) = Raise IndexError ∧
  notebook Timestamp.read (r_unreadable :: frame_sample) = Raise ParserError ∧
  notebook Timestamp.read frame_sample = Ok t_sample.
Proof.
  split_and!; try by vm_compute.
  intros (t & Hrun & _). vm_compute in Hrun. discriminate.
Qed.

(** *** The journal flag, derived twice *)

(** Any cell that is present is flagged 1. *)
Remark journal_ref_flag_present s : journal_ref_flag (Some s) = 1.
Proof. reflexivity. Qed.

(** The first derivation, on the frame that was read back: the flag of a
    record is 1 exactly when its journal reference is a text that the
    reader does not take for a missing value; it is 0 for a reference that
    is null or empty. *)
Lemma first_flag_of_source `{MissingValues} r :
  (journal_ref_flag (journal_ref (read_row r)) = 1 ↔
   ∃ s, journal_ref r = Some s ∧ is_na s = false) ∧
  (journal_ref r = None ∨ journal_ref r = Some "" →
   journal_ref_flag (journal_ref (read_row r)) = 0).
Proof.
  unfold journal_ref_flag. simpl. unfold read_cell. split.
  - destruct (journal_ref r) as [s|]; simpl.
    + destruct (is_na s) eqn:Hna; simpl; split; try done.
      * intros (s' & [= <-] & Hs'). congruence.
      * intros _. by exists s.
    + split; [done|]. by intros (s & Hs & _).
  - intros [->| ->]; [done|]. by rewrite is_na_empty.
Qed.

Lemma submission_first_flag parse rs tbl i r :
  submission parse rs = Ok tbl → rs !! i = Some r →
  ∃ row, tbl !! i = Some row ∧
         s_arxiv_id row = arxiv_id r ∧
         s_journal_ref row = journal_ref_flag (journal_ref r).
Proof.
  intros Hrun Hi.
  destruct (submission_lookup _ _ _ _ _ Hrun Hi) as (d & _ & Hrow).
  eexists. split; [exact Hrow|]. done.
Qed.

(** An empty journal reference is read back as missing and flagged 0 by
    the first derivation. *)
Example empty_journal_ref_reads_as_missing :
  journal_ref r_empty_journal = Some "" ∧
  journal_ref (read_row r_empty_journal) = None ∧
  journal_ref_flag (journal_ref (read_row r_empty_journal)) = 0.
Proof. by split_and!. Qed.

(** The last cell turns every flag into 1 and leaves the identifiers. *)
Lemma rederive_journal_ref_all_one tbl :
  Forall (λ row, s_journal_ref row = 1) (rederive_journal_ref tbl).
Proof.
  unfold rederive_journal_ref. apply Forall_fmap, Forall_forall.
  by intros row _.
Qed.

Lemma rederive_journal_ref_ids tbl :
  s_arxiv_id <$> rederive_journal_ref tbl = s_arxiv_id <$> tbl.
Proof.
  unfold rederive_journal_ref. rewrite <- list_fmap_compose.
  by apply list_fmap_ext.
Qed.

(** C8, evaluated where the code leaves the claim: the record
    [704.0002] has no journal reference, and the first derivation flags it
    0 as the claim says; the last cell derives the flag once more from the
    saved column, whose cells [0] and [1] are all present, and the
    Submission table of the run holds the flag 1 for every record. *)
Theorem saved_journal_flag_is_always_one :
  journal_ref r_0002 = None ∧
  submission Timestamp.read frame_sample = Ok submission_sample ∧
  s_journal_ref <$> submission_sample = [0; 1; 0; 0; 0] ∧
  rederive_journal_ref submission_sample = t_submission t_sample ∧
  notebook Timestamp.read frame_sample = Ok t_sample ∧
  s_journal_ref <$> t_submission t_sample = [1; 1; 1; 1; 1].
Proof. split_and!; by vm_compute. Qed.

(** ** The record filter *)

Lemma loadArxivData_filter catFilter file :
  loadArxivData catFilter file = List.filter (λ doc, catFilter (categories doc)) file.
Proof.
  unfold loadArxivData.
  enough (∀ data,
    fold_left (λ data doc,
                 if catFilter (categories doc) then data ++ [doc] else data)
              file data
    = data ++ List.filter (λ doc, catFilter (categories doc)) file) as Hgen
    by apply (Hgen []).
  induction file as [|doc file IH]; intros data; simpl.
  - by rewrite app_nil_r.
  - rewrite IH. destruct (catFilter (categories doc)); [|done].
    by rewrite <- app_assoc.
Qed.

(** The text before the first dot, as [find] and the slice compute it. *)
Lemma find_dot_area t :
  match area_subarea t with
  | Some (a, _) =>
      Py.find "." t = Z.of_nat (String.length a) ∧
      Py.take (String.length a) t = a
  | None => Py.find "." t = -1
  end.
Proof.
  induction t as [|c t IH]; simpl; [done|].
  destruct (Ascii.eqb c ".") eqn:Hc; simpl; [done|].
  destruct (area_subarea t) as [[a sub]|]; simpl.
  - destruct IH as [-> ->].
    destruct (Z.ltb_spec (Z.of_nat (String.length a)) 0); [lia|].
    split; [lia|done].
  - by rewrite IH.
Qed.

Lemma slice_to_find_dot t :
  Py.slice_to t (Py.find "." t) =
    match area_subarea t with
    | Some (a, _) => a
    | None => Py.take (String.length t - 1) t
    end.
Proof.
  pose proof (find_dot_area t) as Hfind. unfold Py.slice_to.
  destruct (area_subarea t) as [[a sub]|].
  - destruct Hfind as [-> Htake].
    destruct (Z.ltb_spec (Z.of_nat (String.length a)) 0); [lia|].
    by rewrite Nat2Z.id.
  - rewrite Hfind. simpl. f_equal. lia.
Qed.

(** What [isMathCategory] tests: a token of area [math], or a bare token
    that is [math] followed by one more character. *)
Lemma isMathCategory_exact c :
  isMathCategory c =
    existsb (λ t, has_area "math" t || bare_math t) (Py.split " " c).
Proof.
  unfold isMathCategory. cbv zeta.
  induction (Py.split " " c) as [|t ts IH]; [done|].
  simpl. rewrite IH. f_equal.
  rewrite slice_to_find_dot. unfold has_area, bare_math.
  destruct (area_subarea t) as [[a sub]|]; simpl; [|done].
  by rewrite orb_false_r.
Qed.

(** C9, evaluated where the code leaves the claim: a token of five
    letters without a dot, [maths], has no area prefix, yet its last letter
    is dropped by the slice and the record passes the filter. *)
Theorem bare_five_letter_token_is_retained :
  Py.find "." "maths" = -1 ∧
  Py.slice_to "maths" (-1) = "math" ∧
  area_subarea "maths" = None ∧
  existsb (has_area "math") (Py.split " " (categories r_maths)) = false ∧
  isMathCategory (categories r_maths) = true ∧
  loadArxivData isMathCategory [r_0002; r_maths; r_0004]
    = [r_0002; r_maths; r_0004].
Proof. split_and!; reflexivity. Qed.

(** ** Submission-Category *)

Lemma split_nonempty sep s : Py.split sep s ≠ [].
Proof.
  destruct s as [|c s]; simpl; [done|].
  destruct (Ascii.eqb c sep); [done|]. by destruct (Py.split sep s).
Qed.

Lemma flat_map_cons {A B} (f : A → list B) x l :
  flat_map f (x :: l) = f x ++ flat_map f l.
Proof. reflexivity. Qed.

(** Exploding the token lists leaves no missing cell: [split] never
    returns an empty list. *)
Lemma df_explode_tokens rs :
  df_explode ((λ r, (arxiv_id r, Py.split " " (categories r))) <$> rs)
  = (λ p, (p.1, Some p.2)) <$> category_tokens rs.
Proof.
  unfold df_explode, category_tokens.
  induction rs as [|r rs IH]; [done|].
  rewrite fmap_cons, !flat_map_cons, IH, fmap_app. f_equal.
  pose proof (split_nonempty " " (categories r)) as Hne. cbn [fst snd].
  destruct (Py.split " " (categories r)) as [|t ts]; [done|].
  by rewrite <- list_fmap_compose.
Qed.

Lemma zip_fmap_same {A B C} (f : A → B) (g : A → C) (l : list A) :
  zip (f <$> l) (g <$> l) = (λ x, (f x, g x)) <$> l.
Proof. induction l as [|x l IH]; [done|]. csimpl. by rewrite IH. Qed.

Lemma filter_mask {A B} (w : A → B) (f : A → bool) (l : list A) :
  (List.filter snd (zip (w <$> l) (f <$> l))).*1 = w <$> List.filter f l.
Proof.
  induction l as [|x l IH]; [done|].
  csimpl. destruct (f x); csimpl; by rewrite IH.
Qed.

(** The cell never raises, and its rows are the tokens that start with
    the four letters [math], each without its first five characters. *)
Lemma submission_category_rows rs :
  submission_category rs =
    Ok ((λ p, (p.1, Py.slice_from p.2 5)) <$>
        List.filter (λ p, Py.startswith "math" p.2) (category_tokens rs)).
Proof.
  unfold submission_category. rewrite df_explode_tokens.
  set (toks := category_tokens rs).
  set (wrap := λ p : string * string, (p.1, Some p.2)).
  rewrite (series_apply_fmap math_mask wrap).
  rewrite (series_apply_pure _ (λ p, Py.startswith "math" p.2)) by done.
  rewrite bind_Ok, filter_mask.
  set (kept := List.filter _ toks).
  rewrite <- !list_fmap_compose, series_apply_fmap.
  rewrite (series_apply_pure _ (λ p, Py.slice_from p.2 5)) by done.
  rewrite bind_Ok, zip_fmap_same. done.
Qed.

Lemma startswith_math_dot t :
  Py.startswith "math." t = true → Py.startswith "math" t = true.
Proof.
  destruct t as [|c1 [|c2 [|c3 [|c4 [|c5 t]]]]]; simpl;
    rewrite ?andb_false_r; try done.
  intros Hpre. repeat (apply andb_prop in Hpre as [-> Hpre]). done.
Qed.

Lemma fmap_filter_omap {A B C} (h : A → B) (f : B → bool) (g : B → C)
    (k : A → option C) (l : list A) :
  (∀ x, x ∈ l → k x = if f (h x) then Some (g (h x)) else None) →
  g <$> List.filter f (h <$> l) = omap k l.
Proof.
  induction l as [|x l IH]; intros Hk; [done|].
  csimpl. rewrite (Hk x) by left.
  destruct (f (h x)); csimpl; rewrite IH; try done;
    intros y Hy; apply Hk; by right.
Qed.

(** A token with an area prefix is the prefix, a dot and the subarea. *)
Lemma area_subarea_Some t a sub :
  area_subarea t = Some (a, sub) → t = String.append a (String "." sub).
Proof.
  revert a sub; induction t as [|c t IH]; intros a sub; simpl; [done|].
  destruct (Ascii.eqb_spec c ".") as [->|_].
  - by intros [= <- <-].
  - destruct (area_subarea t) as [[a' sub']|]; simpl; [|done].
    intros [= <- <-].
    change (String c t = String c (String.append a' (String "." sub'))).
    f_equal. by apply IH.
Qed.

(** On a token of area [math] the cell keeps the token and cuts it down
    to its subarea. *)
Lemma math_token_kept t sub :
  area_subarea t = Some ("math", sub) →
  Py.startswith "math" t = true ∧ Py.slice_from t 5 = sub.
Proof. intros ->%area_subarea_Some. by split. Qed.

(** X15. Where [startswith('math')] and "the area prefix is [math]" agree
    on every token of every record, the Submission-Category cell succeeds
    and its table is the one of the tokens of area [math], each reduced to
    its subarea, in the order of the records and of their tokens. *)
Lemma submission_category_agrees rs :
  (∀ r t, r ∈ rs → t ∈ Py.split " " (categories r) →
          Py.startswith "math" t = has_area "math" t) →
  submission_category rs = Ok (flat_map math_subareas rs).
Proof.
  intros Hagree. rewrite submission_category_rows. f_equal.
  unfold category_tokens.
  induction rs as [|r rs IH]; [done|].
  rewrite !flat_map_cons, List.filter_app, fmap_app, IH.
  2:{ intros r' t Hr'. apply Hagree. by right. }
  f_equal. unfold math_subareas. apply fmap_filter_omap.
  intros t Ht. cbn [fst snd]. rewrite (Hagree r t) by (done || by left).
  unfold has_area.
  destruct (area_subarea t) as [[a sub]|] eqn:Harea; [|done].
  destruct (String.eqb_spec a "math") as [->|_]; [|done].
  by destruct (math_token_kept _ _ Harea) as [_ ->].
Qed.

(** C2, evaluated where the code leaves the claim: the token [math-ph]
    has no dot and so no area prefix [math], yet it starts with the four
    letters the cell looks for and gets a row, whose [category_id] is [ph];
    the claim gives the record the single row [MP]. *)
Theorem math_ph_token_gets_a_row :
  isMathCategory (categories r_math_ph) = true ∧
  loadArxivData isMathCategory [r_math_ph] = [r_math_ph] ∧
  Py.split " " (categories r_math_ph) = ["math-ph"; "math.MP"] ∧
  has_area "math" "math-ph" = false ∧
  Py.startswith "math" "math-ph" = true ∧
  submission_category [r_math_ph]
    = Ok [("704.0007", "ph"); ("704.0007", "MP")] ∧
  math_subareas r_math_ph = [("704.0007", "MP")].
Proof. split_and!; reflexivity. Qed.




(** ** Sets, dicts and exploded columns *)

Lemma iterate_length `{SetIteration} X : length (iterate X) = size X.
Proof.
  unfold size, set_size. simpl. apply Permutation_length.
  apply NoDup_Permutation; [apply iterate_NoDup|apply NoDup_elements|].
  intros k. by rewrite iterate_elem_of, elem_of_elements.
Qed.

Section Dict.

Context {K V : Type} `{Countable K}.
Implicit Types (l : list (K * V)) (m : gmap K V).

Lemma dict_fold_notin l m k :
  k ∉ l.*1 → fold_left (λ d kv, <[kv.1 := kv.2]> d) l m !! k = m !! k.
Proof.
  revert m; induction l as [|[k0 v0] l IH]; intros m Hnot; [done|].
  simpl. rewrite IH.
  - apply lookup_insert_ne. intros ->. apply Hnot. by left.
  - intros Hin. apply Hnot. by right.
Qed.

(** With distinct keys every pair is found under its key. *)
Lemma dict_fold_NoDup l m k v :
  NoDup (l.*1) → (k, v) ∈ l →
  fold_left (λ d kv, <[kv.1 := kv.2]> d) l m !! k = Some v.
Proof.
  revert m; induction l as [|[k0 v0] l IH]; intros m Hnd Hin.
  - by apply elem_of_nil in Hin.
  - apply NoDup_cons in Hnd as [Hk0 Hnd].
    apply elem_of_cons in Hin as [[= -> ->]|Hin]; simpl.
    + rewrite dict_fold_notin by done. apply lookup_insert_eq.
    + by apply IH.
Qed.

(** What is found was inserted. *)
Lemma dict_fold_Some l m k v :
  fold_left (λ d kv, <[kv.1 := kv.2]> d) l m !! k = Some v →
  (k, v) ∈ l ∨ m !! k = Some v.
Proof.
  revert m; induction l as [|[k0 v0] l IH]; intros m Hlook; [by right|].
  simpl in Hlook. apply IH in Hlook as [Hin|Hlook].
  - left. by right.
  - destruct (decide (k0 = k)) as [->|Hne].
    + rewrite lookup_insert_eq in Hlook. injection Hlook as ->.
      left. by left.
    + rewrite lookup_insert_ne in Hlook by done. by right.
Qed.

Lemma dict_lookup_zip (ks : list K) (vs : list V) i k v :
  NoDup ks → length ks = length vs →
  ks !! i = Some k → vs !! i = Some v →
  dict (zip ks vs) !! k = Some v.
Proof.
  intros Hnd Hlen Hk Hv. unfold dict. apply dict_fold_NoDup.
  - rewrite fst_zip by lia. done.
  - apply list_elem_of_lookup. exists i.
    by rewrite lookup_zip_with, Hk, Hv.
Qed.

End Dict.

Section Explode.

Context {B : Type}.

(** Without empty lists, exploding is flattening. *)
Lemma explode_nonempty (col : list (list B)) :
  Forall (λ l, l ≠ []) col → explode col = Some <$> concat col.
Proof.
  unfold explode. induction 1 as [|l col Hl _ IH]; [done|].
  rewrite flat_map_cons, IH. csimpl. rewrite fmap_app.
  by destruct l.
Qed.

(** An empty list leaves a missing cell. *)
Lemma explode_empty (col : list (list B)) :
  [] ∈ col → None ∈ explode col.
Proof.
  unfold explode. induction col as [|l col IH]; intros Hin.
  - by apply elem_of_nil in Hin.
  - rewrite flat_map_cons. apply elem_of_app.
    apply elem_of_cons in Hin as [<-|Hin]; [left; by left|right; auto].
Qed.

Lemma df_explode_nonempty {A} (rows : list (A * list B)) :
  Forall (λ row, row.2 ≠ []) rows →
  df_explode rows = flat_map (λ row, (λ b, (row.1, Some b)) <$> row.2) rows.
Proof.
  unfold df_explode. induction 1 as [|[a l] rows Hl _ IH]; [done|].
  rewrite !flat_map_cons, IH. f_equal. simpl in *. by destruct l.
Qed.

Lemma df_explode_empty {A} (rows : list (A * list B)) a :
  (a, []) ∈ rows → (a, None) ∈ df_explode rows.
Proof.
  unfold df_explode. induction rows as [|row rows IH]; intros Hin.
  - by apply elem_of_nil in Hin.
  - rewrite flat_map_cons. apply elem_of_app.
    apply elem_of_cons in Hin as [<-|Hin]; [left; by left|right; auto].
Qed.

End Explode.

(** ** The author registry *)

Section AuthorFacts.

Context `{SetIteration}.

Lemma key_of_raises x e : key_of x = Raise e → e = TypeError.
Proof. destruct x; [discriminate|]. by intros [= <-]. Qed.

Lemma observed_elem rs k :
  k ∈ observed rs ↔ ∃ r a, r ∈ rs ∧ a ∈ authors_parsed r ∧ k = take 2 a.
Proof.
  unfold observed. rewrite elem_of_list_to_set, list_elem_of_fmap. split.
  - intros (a & -> & Ha). apply list_elem_of_In, in_concat in Ha
      as (l & Hl & Ha).
    apply list_elem_of_In, list_elem_of_fmap in Hl as (r & -> & Hr).
    apply list_elem_of_In in Ha. by exists r, a.
  - intros (r & a & Hr & Ha & ->). exists a. split; [done|].
    apply list_elem_of_In, in_concat. exists (authors_parsed r).
    split; apply list_elem_of_In; [by apply list_elem_of_fmap_2|done].
Qed.

Lemma observed_length rs k : k ∈ observed rs → (length k ≤ 2)%nat.
Proof.
  intros (r & a & _ & _ & ->)%observed_elem. rewrite length_take. lia.
Qed.

(** When no author list is empty, [unique_names] lists the observed keys. *)
Lemma unique_names_nonempty rs :
  Forall (λ r, authors_parsed r ≠ []) rs →
  unique_names rs = Ok (iterate (observed rs)).
Proof.
  intros Hne. unfold unique_names.
  rewrite explode_nonempty by (by apply Forall_fmap).
  rewrite series_apply_fmap.
  by rewrite (series_apply_pure _ (take 2)).
Qed.

(** An empty author list makes the set comprehension raise. *)
Lemma unique_names_empty rs r :
  r ∈ rs → authors_parsed r = [] → unique_names rs = Raise TypeError.
Proof.
  intros Hr Hempty. unfold unique_names.
  assert (None ∈ explode (authors_parsed <$> rs)) as Hnan.
  { apply explode_empty. rewrite <- Hempty. by apply list_elem_of_fmap_2. }
  destruct (series_apply_elem_raise key_of _ None TypeError Hnan eq_refl)
    as [e He].
  rewrite He. destruct (series_apply_Raise _ _ _ He) as (x & _ & Hx).
  by rewrite (key_of_raises _ _ Hx).
Qed.

Lemma unique_names_Ok rs names :
  unique_names rs = Ok names →
  Forall (λ r, authors_parsed r ≠ []) rs ∧ names = iterate (observed rs).
Proof.
  intros Hrun.
  assert (Forall (λ r, authors_parsed r ≠ []) rs) as Hne.
  { apply Forall_forall. intros r Hr Hempty.
    rewrite (unique_names_empty _ _ Hr Hempty) in Hrun. discriminate. }
  split; [done|]. rewrite unique_names_nonempty in Hrun by done.
  by injection Hrun as <-.
Qed.

(** Row [i] of the Author frame is key [i], numbered [i]. *)
Lemma author_lookup names tbl i k :
  author names = Ok tbl → names !! i = Some k →
  ∃ s f, k !! 0%nat = Some s ∧ k !! 1%nat = Some f ∧
         tbl !! i = Some {| author_id := i; surname := s; first_name := f |}.
Proof.
  unfold author. intros Hrun Hi.
  destruct (series_apply (λ name, tuple_get name 0) names)
    as [surnames|e] eqn:Hs; [|discriminate].
  destruct (series_apply (λ name, tuple_get name 1) names)
    as [first_names|e] eqn:Hf; [|discriminate].
  injection Hrun as <-.
  destruct (series_apply_lookup _ _ _ _ _ Hs Hi) as (s & Hsi & Hks).
  destruct (series_apply_lookup _ _ _ _ _ Hf Hi) as (f & Hfi & Hkf).
  unfold tuple_get in Hks, Hkf.
  destruct (k !! 0%nat) as [s'|]; [injection Hks as ->|discriminate].
  destruct (k !! 1%nat) as [f'|]; [injection Hkf as ->|discriminate].
  exists s, f. split_and!; [done|done|].
  by rewrite list_lookup_imap, lookup_zip_with, Hsi, Hfi.
Qed.

Lemma author_length names tbl :
  author names = Ok tbl → length tbl = length names.
Proof.
  unfold author. intros Hrun.
  destruct (series_apply (λ name, tuple_get name 0) names)
    as [surnames|e] eqn:Hs; [|discriminate].
  destruct (series_apply (λ name, tuple_get name 1) names)
    as [first_names|e] eqn:Hf; [|discriminate].
  injection Hrun as <-.
  apply series_apply_length in Hs, Hf.
  rewrite length_imap, length_zip_with. lia.
Qed.

Lemma author_ids names tbl :
  author names = Ok tbl → author_id <$> tbl = seq 0 (length names).
Proof.
  intros Hrun. apply list_eq. intros i. rewrite list_lookup_fmap.
  destruct (names !! i) as [k|] eqn:Hi.
  - destruct (author_lookup _ _ _ _ Hrun Hi) as (s & f & _ & _ & ->).
    apply lookup_lt_Some in Hi. by rewrite lookup_seq_lt.
  - apply lookup_ge_None in Hi. rewrite lookup_seq_ge by done.
    apply author_length in Hrun.
    rewrite (proj2 (lookup_ge_None tbl i)); [done|lia].
Qed.

Lemma author_total names :
  Forall (λ k, 2 ≤ length k)%nat names → ∃ tbl, author names = Ok tbl.
Proof.
  intros Hlen. unfold author.
  destruct (series_apply_total (λ name, tuple_get name 0) names)
    as [surnames ->].
  { intros k Hk. rewrite Forall_forall in Hlen. specialize (Hlen k Hk).
    unfold tuple_get. destruct k as [|s k]; simpl in *; [lia|eauto]. }
  destruct (series_apply_total (λ name, tuple_get name 1) names)
    as [first_names ->].
  { intros k Hk. rewrite Forall_forall in Hlen. specialize (Hlen k Hk).
    unfold tuple_get. destruct k as [|s [|f k]]; simpl in *; [lia|lia|eauto]. }
  rewrite !bind_Ok. eauto.
Qed.

(** The dict sends key [i] of the list to [i], and nothing else. *)
Lemma author_dict_lookup names tbl i k :
  NoDup names → author names = Ok tbl → names !! i = Some k →
  author_dict names tbl !! k = Some i.
Proof.
  intros Hnd Hrun Hi. unfold author_dict.
  apply (dict_lookup_zip _ _ i); [done| |done|].
  - rewrite length_fmap. symmetry. by apply author_length.
  - rewrite (author_ids _ _ Hrun). apply lookup_lt_Some in Hi.
    by rewrite lookup_seq_lt.
Qed.

Lemma author_dict_Some names tbl k i :
  author names = Ok tbl → author_dict names tbl !! k = Some i →
  names !! i = Some k.
Proof.
  intros Hrun Hlook. unfold author_dict, dict in Hlook.
  apply dict_fold_Some in Hlook as [Hin|Hempty]; [|by rewrite lookup_empty in Hempty].
  apply list_elem_of_lookup in Hin as [j Hj].
  rewrite lookup_zip_with in Hj. rewrite (author_ids _ _ Hrun) in Hj.
  destruct (names !! j) as [k'|] eqn:Hk'; [|discriminate]. simpl in Hj.
  destruct (seq 0 (length names) !! j) as [i'|] eqn:Hi'; [|discriminate].
  injection Hj as -> ->. apply lookup_seq in Hi' as [-> _]. done.
Qed.

Lemma authors_well_formed_spec rs :
  authors_well_formed rs = true →
  Forall (λ r, authors_parsed r ≠ []) rs ∧
  ∀ r a, r ∈ rs → a ∈ authors_parsed r → (2 ≤ length a)%nat.
Proof.
  unfold authors_well_formed. rewrite forallb_forall. intros Hwf. split.
  - apply Forall_forall. intros r Hr%list_elem_of_In.
    apply Hwf, andb_prop in Hr as [Hne _].
    apply negb_true_iff, bool_decide_eq_false in Hne. done.
  - intros r a Hr%list_elem_of_In Ha%list_elem_of_In.
    apply Hwf, andb_prop in Hr as [_ Hlen].
    rewrite forallb_forall in Hlen.
    by apply Hlen, bool_decide_eq_true in Ha.
Qed.

(** On well-formed author lists both cells of the registry succeed. *)
Lemma well_formed_registry rs :
  authors_well_formed rs = true →
  ∃ tbl, unique_names rs = Ok (iterate (observed rs)) ∧
         author (iterate (observed rs)) = Ok tbl.
Proof.
  intros [Hne Hlen]%authors_well_formed_spec.
  destruct (author_total (iterate (observed rs))) as [tbl Htbl].
  { apply Forall_forall. intros k Hk%iterate_elem_of.
    apply observed_elem in Hk as (r & a & Hr & Ha & ->).
    rewrite length_take. specialize (Hlen r a Hr Ha). lia. }
  exists tbl. split; [by apply unique_names_nonempty|done].
Qed.

(** The keys, in order, are the name columns of the Author frame. *)
Lemma author_rows names tbl :
  author names = Ok tbl →
  (∀ k, k ∈ names → (length k ≤ 2)%nat) →
  names = (λ row, [surname row; first_name row]) <$> tbl.
Proof.
  intros Hrun Hshort. apply list_eq. intros i. rewrite list_lookup_fmap.
  destruct (names !! i) as [k|] eqn:Hi.
  - destruct (author_lookup _ _ _ _ Hrun Hi) as (s & f & Hs & Hf & ->).
    assert (k ∈ names) as Hk by (apply list_elem_of_lookup; eauto).
    apply Hshort in Hk. simpl.
    destruct k as [|s' [|f' [|x k]]]; simpl in *; try discriminate; [|lia].
    by injection Hs as ->; injection Hf as ->.
  - apply lookup_ge_None in Hi. apply author_length in Hrun.
    rewrite (proj2 (lookup_ge_None tbl i)); [done|lia].
Qed.

End AuthorFacts.

(** C5. On records whose author lists are well formed, the registry cells
    succeed and the Author table has exactly one row per distinct
    (surname, first name) pair of the parsed author lists, the suffix
    dropped: no two rows share a pair, a pair is observed exactly when
    it has a row, and the [author_id] column is [0, 1, ..., N-1] with [N]
    the number of distinct keys. *)
Theorem author_one_row_per_pair `{SetIteration} rs :
  authors_well_formed rs = true →
  ∃ names tbl,
    unique_names rs = Ok names ∧
    author names = Ok tbl ∧
    NoDup ((λ row, (surname row, first_name row)) <$> tbl) ∧
    (∀ s f, (∃ r a, r ∈ rs ∧ a ∈ authors_parsed r ∧ take 2 a = [s; f]) ↔
            (∃ row, row ∈ tbl ∧ surname row = s ∧ first_name row = f)) ∧
    author_id <$> tbl = seq 0 (size (observed rs)).
Proof.
  intros Hwf. destruct (well_formed_registry rs Hwf) as (tbl & Hnames & Htbl).
  exists (iterate (observed rs)), tbl. split; [done|]. split; [done|].
  assert (iterate (observed rs) = (λ row, [surname row; first_name row]) <$> tbl)
    as Hrows.
  { apply author_rows; [done|].
    intros k Hk%iterate_elem_of. by eapply observed_length. }
  split_and!.
  - pose proof (iterate_NoDup (observed rs)) as Hnd. rewrite Hrows in Hnd.
    rewrite (list_fmap_compose (λ row, (surname row, first_name row))
                               (λ p, [p.1; p.2])) in Hnd.
    by apply NoDup_fmap_1 in Hnd.
  - intros s f. transitivity ([s; f] ∈ iterate (observed rs)).
    + rewrite iterate_elem_of, observed_elem.
      split; intros (r & a & Hr & Ha & Hk); by exists r, a.
    + rewrite Hrows, list_elem_of_fmap. split.
      * intros (row & [= -> ->] & Hrow). eauto.
      * intros (row & Hrow & <- & <-). eauto.
  - by rewrite (author_ids _ _ Htbl), iterate_length.
Qed.

Lemma author_one_row_per_pair_witness :
  authors_well_formed [r_0002; r_0004] = true ∧
  ∃ names tbl,
    unique_names [r_0002; r_0004] = Ok names ∧
    author names = Ok tbl ∧
    NoDup ((λ row, (surname row, first_name row)) <$> tbl) ∧
    (∀ s f, (∃ r a, r ∈ [r_0002; r_0004] ∧ a ∈ authors_parsed r ∧
                    take 2 a = [s; f]) ↔
            (∃ row, row ∈ tbl ∧ surname row = s ∧ first_name row = f)) ∧
    author_id <$> tbl = seq 0 (size (observed [r_0002; r_0004])).
Proof.
  split; [reflexivity|].
  apply (author_one_row_per_pair [r_0002; r_0004]). reflexivity.
Defined.

(** ** Submission-Author *)

Section SubmissionAuthorFacts.

Context `{SetIteration}.
Implicit Types (d : gmap (list string) nat) (rs : list record).

Lemma lookup_author_raises d x e :
  lookup_author d x = Raise e → e = TypeError ∨ e = KeyError.
Proof.
  unfold lookup_author. destruct x as [a|]; simpl.
  - destruct (d !! take 2 a); [discriminate|]. intros [= <-]. by right.
  - intros [= <-]. by left.
Qed.

Lemma lookup_author_Some d a i :
  d !! take 2 a = Some i → lookup_author d (Some a) = Ok i.
Proof. unfold lookup_author. simpl. by intros ->. Qed.

(** Without empty author lists the exploded frame has one row per
    author position. *)
Lemma df_explode_positions rs :
  Forall (λ r, authors_parsed r ≠ []) rs →
  df_explode ((λ r, (arxiv_id r, authors_parsed r)) <$> rs)
  = (λ q, (q.1, Some q.2)) <$> author_positions rs.
Proof.
  intros Hne. rewrite df_explode_nonempty by (by apply Forall_fmap).
  unfold author_positions. clear Hne.
  induction rs as [|r rs IH]; [done|].
  rewrite fmap_cons, !flat_map_cons, IH, fmap_app. f_equal.
  cbn [fst snd]. by rewrite <- list_fmap_compose.
Qed.

Lemma author_positions_elem rs q :
  q ∈ author_positions rs ↔
  ∃ r, r ∈ rs ∧ q.1 = arxiv_id r ∧ q.2 ∈ authors_parsed r.
Proof.
  unfold author_positions. rewrite list_elem_of_In, in_flat_map. split.
  - intros (r & Hr & Hq). apply list_elem_of_In in Hr.
    apply list_elem_of_In, list_elem_of_fmap in Hq as (a & -> & Ha). eauto.
  - intros (r & Hr & Hid & Ha). exists r. rewrite <- !list_elem_of_In.
    split; [done|]. apply list_elem_of_fmap. exists q.2.
    split; [|done]. destruct q. simpl in *. by subst.
Qed.

(** When every key is found, there is one row per author position. *)
Lemma submission_author_rows d rs (idx : list string → nat) :
  Forall (λ r, authors_parsed r ≠ []) rs →
  (∀ q, q ∈ author_positions rs → d !! take 2 q.2 = Some (idx (take 2 q.2))) →
  submission_author d rs
  = Ok ((λ q, (q.1, idx (take 2 q.2))) <$> author_positions rs).
Proof.
  intros Hne Hfound. unfold submission_author.
  rewrite df_explode_positions by done.
  rewrite <- !list_fmap_compose, series_apply_fmap.
  rewrite (series_apply_pure _ (λ q, idx (take 2 q.2))).
  - by rewrite bind_Ok, zip_fmap_same.
  - intros q Hq. apply lookup_author_Some. auto.
Qed.

(** An empty author list makes the lookup raise. *)
Lemma submission_author_empty d rs r :
  r ∈ rs → authors_parsed r = [] →
  ∃ e, submission_author d rs = Raise e ∧
       ∃ x, x ∈ (df_explode ((λ r, (arxiv_id r, authors_parsed r)) <$> rs)).*2 ∧
            lookup_author d x = Raise e.
Proof.
  intros Hr Hempty. unfold submission_author.
  set (exploded := df_explode _).
  assert (None ∈ exploded.*2) as Hnan.
  { apply list_elem_of_fmap. exists (arxiv_id r, None). split; [done|].
    apply df_explode_empty. rewrite <- Hempty.
    by apply (list_elem_of_fmap_2 (λ r, (arxiv_id r, authors_parsed r))). }
  destruct (series_apply_elem_raise (lookup_author d) _ None TypeError
              Hnan eq_refl) as [e He].
  exists e. rewrite He. split; [done|]. by apply series_apply_Raise.
Qed.

Lemma df_explode_Some {A B} (rows : list (A * list B)) a b :
  (a, Some b) ∈ df_explode rows → ∃ l, (a, l) ∈ rows ∧ b ∈ l.
Proof.
  unfold df_explode. rewrite list_elem_of_In, in_flat_map.
  intros ([a' l] & Hrow%list_elem_of_In & Hin%list_elem_of_In).
  cbn [fst snd] in Hin. destruct l as [|b' l].
  - apply list_elem_of_singleton in Hin. discriminate.
  - apply list_elem_of_fmap in Hin as (b0 & [= -> ->] & Hb0). eauto.
Qed.

End SubmissionAuthorFacts.

(** Each author position is resolved by the dict of the registry built
    from the same records, to the row that carries its name. *)
Lemma registry_resolves `{SetIteration} rs names tbl q :
  unique_names rs = Ok names → author names = Ok tbl →
  q ∈ author_positions rs →
  ∃ i s f, author_dict names tbl !! take 2 q.2 = Some i ∧
           take 2 q.2 = [s; f] ∧
           tbl !! i = Some {| author_id := i; surname := s; first_name := f |}.
Proof.
  intros [_ ->]%unique_names_Ok Htbl (r & Hr & _ & Ha)%author_positions_elem.
  assert (take 2 q.2 ∈ observed rs) as Hobs
    by (apply observed_elem; by exists r, q.2).
  pose proof (observed_length _ _ Hobs) as Hshort.
  apply iterate_elem_of, list_elem_of_lookup in Hobs as [i Hi].
  destruct (author_lookup _ _ _ _ Htbl Hi) as (s & f & Hs & Hf & Hrow).
  exists i, s, f. split_and!; [|clear Hi Hrow|done].
  - apply author_dict_lookup; [apply iterate_NoDup|done|done].
  - destruct (take 2 q.2) as [|s' [|f' [|x k]]]; simpl in *;
      try discriminate; [|lia].
    by injection Hs as ->; injection Hf as ->.
Qed.

(** C6. On records whose author lists are well formed, the
    Submission-Author table has exactly one row per author position, in
    the order of the records and of their author lists; the row carries
    the identifier of the submission and the [author_id] of the Author row
    that holds the (surname, first name) pair of that position.  The ids
    are a function of the pair alone, and no row is dropped: equal pairs,
    in one paper or in two, give rows with the same [author_id]. *)
Theorem submission_author_one_row_per_position `{SetIteration} rs :
  authors_well_formed rs = true →
  ∃ names tbl sa (idx : list string → nat),
    unique_names rs = Ok names ∧
    author names = Ok tbl ∧
    submission_author (author_dict names tbl) rs = Ok sa ∧
    sa = (λ q, (q.1, idx (take 2 q.2))) <$> author_positions rs ∧
    ∀ q, q ∈ author_positions rs →
         ∃ s f, take 2 q.2 = [s; f] ∧
                tbl !! idx (take 2 q.2)
                = Some {| author_id := idx (take 2 q.2);
                          surname := s; first_name := f |}.
Proof.
  intros Hwf. destruct (well_formed_registry rs Hwf) as (tbl & Hnames & Htbl).
  pose proof (proj1 (authors_well_formed_spec rs Hwf)) as Hne.
  set (names := iterate (observed rs)) in *.
  set (idx := λ k, default 0%nat (author_dict names tbl !! k)).
  assert (∀ q, q ∈ author_positions rs →
               ∃ s f, author_dict names tbl !! take 2 q.2
                      = Some (idx (take 2 q.2)) ∧
                      take 2 q.2 = [s; f] ∧
                      tbl !! idx (take 2 q.2)
                      = Some {| author_id := idx (take 2 q.2);
                                surname := s; first_name := f |}) as Hidx.
  { intros q Hq.
    destruct (registry_resolves rs names tbl q Hnames Htbl Hq)
      as (i & s & f & Hi & Hk & Hrow).
    exists s, f. unfold idx. rewrite Hi. simpl. done. }
  exists names, tbl, ((λ q, (q.1, idx (take 2 q.2))) <$> author_positions rs), idx.
  split_and!; [done|done| |done|].
  - apply submission_author_rows; [done|].
    intros q Hq. by destruct (Hidx q Hq) as (s & f & Hi & _).
  - intros q Hq. destruct (Hidx q Hq) as (s & f & _ & Hk & Hrow). eauto.
Qed.

Lemma submission_author_one_row_per_position_witness :
  authors_well_formed [r_math_ph; r_ZZ] = true ∧
  ∃ names tbl sa (idx : list string → nat),
    unique_names [r_math_ph; r_ZZ] = Ok names ∧
    author names = Ok tbl ∧
    submission_author (author_dict names tbl) [r_math_ph; r_ZZ] = Ok sa ∧
    sa = (λ q, (q.1, idx (take 2 q.2))) <$> author_positions [r_math_ph; r_ZZ] ∧
    ∀ q, q ∈ author_positions [r_math_ph; r_ZZ] →
         ∃ s f, take 2 q.2 = [s; f] ∧
                tbl !! idx (take 2 q.2)
                = Some {| author_id := idx (take 2 q.2);
                          surname := s; first_name := f |}.
Proof.
  split; [reflexivity|].
  apply (submission_author_one_row_per_position [r_math_ph; r_ZZ]).
  reflexivity.
Defined.

(** The scenario of the spec: one paper by [Smith, J.] and one listing
    [Smith, J.] twice (once with a suffix) give one Author row and three
    join rows with its id. *)
Example smith_twice :
  ∃ names tbl,
    unique_names [r_math_ph; r_ZZ] = Ok names ∧
    author names = Ok tbl ∧
    tbl = [{| author_id := 0; surname := "Smith"; first_name := "J." |}] ∧
    submission_author (author_dict names tbl) [r_math_ph; r_ZZ]
    = Ok [("704.0007", 0%nat); ("704.0008", 0%nat); ("704.0008", 0%nat)].
Proof. eexists _, _. split_and!; by vm_compute. Qed.

(** C7. When the registry cells have succeeded on the records, the dict
    built from them finds the key of every author position of the same
    records, so that the Submission-Author cell succeeds without a
    [KeyError], and every [author_id] of its rows is an [author_id] of the
    Author table. *)
Theorem author_lookup_never_fails `{SetIteration} rs names tbl :
  unique_names rs = Ok names →
  author names = Ok tbl →
  (∀ q, q ∈ author_positions rs →
        ∃ i, author_dict names tbl !! take 2 q.2 = Some i ∧
             i ∈ author_id <$> tbl) ∧
  ∃ sa, submission_author (author_dict names tbl) rs = Ok sa ∧
        ∀ row, row ∈ sa → row.2 ∈ author_id <$> tbl.
Proof.
  intros Hnames Htbl.
  assert (∀ q, q ∈ author_positions rs →
               ∃ i, author_dict names tbl !! take 2 q.2 = Some i ∧
                    i ∈ author_id <$> tbl) as Hfound.
  { intros q Hq.
    destruct (registry_resolves rs names tbl q Hnames Htbl Hq)
      as (i & s & f & Hi & _ & Hrow).
    exists i. split; [done|]. apply list_elem_of_fmap.
    eexists. split; [|by eapply list_elem_of_lookup_2]. done. }
  split; [done|].
  set (idx := λ k, default 0%nat (author_dict names tbl !! k)).
  exists ((λ q, (q.1, idx (take 2 q.2))) <$> author_positions rs). split.
  - apply submission_author_rows; [by apply unique_names_Ok in Hnames as [? _]|].
    intros q Hq. destruct (Hfound q Hq) as (i & Hi & _).
    unfold idx. by rewrite Hi.
  - intros row (q & -> & Hq)%list_elem_of_fmap.
    destruct (Hfound q Hq) as (i & Hi & Hin).
    unfold idx. simpl. by rewrite Hi.
Qed.

Lemma author_lookup_never_fails_witness :
  (∀ q, q ∈ author_positions [r_0002; r_0004] →
        ∃ i, author_dict (elements (observed [r_0002; r_0004]))
               [ {| author_id := 0; surname := "Theran"; first_name := "Louis" |};
                 {| author_id := 1; surname := "Callan"; first_name := "David" |};
                 {| author_id := 2; surname := "Streinu"; first_name := "Ileana" |} ]
               !! take 2 q.2 = Some i ∧
             i ∈ [0; 1; 2]%nat) ∧
  ∃ sa, submission_author
          (author_dict (elements (observed [r_0002; r_0004]))
             [ {| author_id := 0; surname := "Theran"; first_name := "Louis" |};
               {| author_id := 1; surname := "Callan"; first_name := "David" |};
               {| author_id := 2; surname := "Streinu"; first_name := "Ileana" |} ])
          [r_0002; r_0004] = Ok sa ∧
        ∀ row, row ∈ sa → row.2 ∈ [0; 1; 2]%nat.
Proof.
  apply (author_lookup_never_fails [r_0002; r_0004]
           (elements (observed [r_0002; r_0004]))); by vm_compute.
Defined.

(** C10. A record with an empty parsed author list makes both author
    cells raise: the set comprehension of the registry meets the missing
    cell left by the explosion and raises [TypeError], and so does the
    lookup of the Submission-Author cell, unless a key absent from the
    dict given to it raises [KeyError] first.  The record is not skipped
    and no table is produced. *)
Theorem empty_author_list_raises `{SetIteration} rs r :
  r ∈ rs →
  authors_parsed r = [] →
  unique_names rs = Raise TypeError ∧
  (∀ d, submission_author d rs = Raise TypeError ∨
        submission_author d rs = Raise KeyError) ∧
  (∀ d, (∀ q, q ∈ author_positions rs → is_Some (d !! take 2 q.2)) →
        submission_author d rs = Raise TypeError).
Proof.
  intros Hr Hempty. split_and!.
  - by eapply unique_names_empty.
  - intros d.
    destruct (submission_author_empty d rs r Hr Hempty) as (e & -> & x & _ & Hx).
    apply lookup_author_raises in Hx as [->| ->]; auto.
  - intros d Hcovers.
    destruct (submission_author_empty d rs r Hr Hempty) as (e & -> & x & Hin & Hx).
    destruct x as [a|]; [|by injection Hx as <-].
    exfalso. apply list_elem_of_fmap in Hin as ([i x] & Hsnd & Hin).
    simpl in Hsnd. subst x.
    apply df_explode_Some in Hin as (l & Hrow & Ha).
    apply list_elem_of_fmap in Hrow as (r' & [= -> ->] & Hr').
    destruct (Hcovers (arxiv_id r', a)) as [j Hj].
    { apply author_positions_elem. by exists r'. }
    cbn [snd] in Hj. by rewrite (lookup_author_Some _ _ _ Hj) in Hx.
Qed.

Lemma empty_author_list_raises_witness :
  unique_names [r_0002; r_no_authors] = Raise TypeError ∧
  (∀ d, submission_author d [r_0002; r_no_authors] = Raise TypeError ∨
        submission_author d [r_0002; r_no_authors] = Raise KeyError) ∧
  (∀ d, (∀ q, q ∈ author_positions [r_0002; r_no_authors] →
              is_Some (d !! take 2 q.2)) →
        submission_author d [r_0002; r_no_authors] = Raise TypeError).
Proof.
  apply (empty_author_list_raises [r_0002; r_no_authors] r_no_authors).
  - right. left.
  - reflexivity.
Defined.

(** The whole run stops on such a record as well. *)
Example notebook_no_authors :
  notebook Timestamp.read (frame_sample ++ [r_no_authors]) = Raise TypeError.
Proof. by vm_compute. Qed.

(** ** The run as a whole *)

Lemma submission_raises parse rs e :
  submission parse rs = Raise e →
  e = IndexError ∨ e = ParserError ∨ e = ValueError.
Proof.
  unfold submission. intros Hrun.
  destruct (series_apply (submission_date parse) (versions <$> rs))
    as [dates|e'] eqn:Hdates.
  - rewrite bind_Ok in Hrun. unfold sample in Hrun.
    destruct (length rs <? 5)%nat; [|discriminate].
    injection Hrun as <-. auto.
  - injection Hrun as <-.
    apply series_apply_Raise in Hdates as (vs & _ & Hvs).
    destruct vs as [|v vs].
    + rewrite submission_date_nil in Hvs. injection Hvs as <-. by left.
    + rewrite submission_date_cons in Hvs.
      destruct (parse (created v)); [discriminate|].
      injection Hvs as <-. auto.
Qed.

Lemma read_csv_Ok `{MissingValues} frame arxiv_math :
  read_csv frame = Ok arxiv_math →
  frame ≠ [] ∧ arxiv_math = read_row <$> frame.
Proof. destruct frame; [done|]. by intros [= <-]. Qed.

Lemma read_csv_raises `{MissingValues} frame e :
  read_csv frame = Raise e → e = EmptyDataError.
Proof. destruct frame; [|done]. by intros [= <-]. Qed.

(** The loop that prints the first ids finds every name it asks for. *)
Lemma print_first_ids_Ok `{SetIteration} rs names tbl :
  unique_names rs = Ok names → author names = Ok tbl →
  ∃ ids, print_first_ids (author_dict names tbl) names = Ok ids.
Proof.
  intros Hnames Htbl. unfold print_first_ids. apply series_apply_total.
  intros k [i Hi]%list_elem_of_lookup.
  rewrite lookup_take_Some in Hi. destruct Hi as [Hi _].
  rewrite (author_dict_lookup names tbl i k); [eauto| |done|done].
  apply unique_names_Ok in Hnames as [_ ->]. apply iterate_NoDup.
Qed.

Lemma author_raises names e :
  author names = Raise e → e = IndexError.
Proof.
  unfold author. intros Hrun.
  destruct (series_apply (λ name, tuple_get name 0) names)
    as [surnames|e0] eqn:Hs.
  - destruct (series_apply (λ name, tuple_get name 1) names)
      as [first_names|e1] eqn:Hf; [discriminate|].
    injection Hrun as <-.
    apply series_apply_Raise in Hf as (k & _ & Hk). unfold tuple_get in Hk.
    destruct (k !! 1%nat); [discriminate|]. by injection Hk as <-.
  - injection Hrun as <-.
    apply series_apply_Raise in Hs as (k & _ & Hk). unfold tuple_get in Hk.
    destruct (k !! 0%nat); [discriminate|]. by injection Hk as <-.
Qed.

(** No run of the notebook ends in a [KeyError]: the dict is always the
    one of the registry built from the records it is asked about. *)
Lemma notebook_never_KeyError `{SetIteration} `{MissingValues} parse file :
  notebook parse file ≠ Raise KeyError.
Proof.
  unfold notebook.
  destruct (read_csv (loadArxivData isMathCategory file))
    as [arxiv_math|e] eqn:Hread.
  2:{ apply read_csv_raises in Hread as ->. discriminate. }
  rewrite bind_Ok.
  destruct (submission parse arxiv_math) as [sub|e] eqn:Hsub.
  2:{ apply submission_raises in Hsub as [->|[->| ->]]; discriminate. }
  rewrite bind_Ok.
  destruct (unique_names arxiv_math) as [names|e] eqn:Hnames.
  2:{ destruct (decide (Forall (λ r, authors_parsed r ≠ []) arxiv_math))
        as [Hne|Hne].
      - rewrite unique_names_nonempty in Hnames by done. discriminate.
      - apply not_Forall_Exists in Hne; [|apply _].
        apply Exists_exists in Hne as (r & Hr & Hempty).
        apply dec_stable in Hempty.
        rewrite (unique_names_empty _ _ Hr Hempty) in Hnames.
        injection Hnames as <-. discriminate. }
  rewrite bind_Ok.
  destruct (author names) as [tbl|e] eqn:Htbl.
  2:{ apply author_raises in Htbl as ->. discriminate. }
  rewrite bind_Ok.
  destruct (print_first_ids_Ok _ _ _ Hnames Htbl) as [ids ->].
  rewrite bind_Ok.
  rewrite (submission_author_rows _ _
             (λ k, default 0%nat (author_dict names tbl !! k))).
  - rewrite bind_Ok, submission_category_rows. discriminate.
  - by apply unique_names_Ok in Hnames as [? _].
  - intros q Hq.
    destruct (registry_resolves _ _ _ q Hnames Htbl Hq) as (i & _ & _ & -> & _).
    done.
Qed.

(** * Further properties of the cells *)

(** ** The loader and the category test *)

Lemma filter_sublist {A} (f : A → bool) (l : list A) :
  sublist (List.filter f l) l.
Proof.
  induction l as [|x l IH]; simpl; [constructor|].
  destruct (f x); by constructor.
Qed.

Lemma filter_filter {A} (f : A → bool) (l : list A) :
  List.filter f (List.filter f l) = List.filter f l.
Proof.
  induction l as [|x l IH]; simpl; [done|].
  destruct (f x) eqn:Hx; simpl; by rewrite ?Hx, IH.
Qed.

(** X1. The loop of [loadArxivData] returns a subsequence of the file, in
    the order of the file: a document is in the frame exactly when it is in
    the file and its category string passes the filter.  Loading the
    frame again with the same filter changes nothing. *)
Theorem loadArxivData_subsequence catFilter file :
  sublist (loadArxivData catFilter file) file ∧
  (∀ doc, doc ∈ loadArxivData catFilter file ↔
          doc ∈ file ∧ catFilter (categories doc) = true) ∧
  loadArxivData catFilter (loadArxivData catFilter file)
  = loadArxivData catFilter file.
Proof.
  rewrite !loadArxivData_filter. split_and!.
  - apply filter_sublist.
  - intros doc. by rewrite !list_elem_of_In, filter_In.
  - apply filter_filter.
Qed.

Lemma has_area_math t :
  has_area "math" t = true ↔ ∃ sub, t = "math." +:+ sub.
Proof.
  unfold has_area. split.
  - destruct (area_subarea t) as [[a sub]|] eqn:Harea; [|done].
    intros ->%String.eqb_eq. exists sub. by apply area_subarea_Some in Harea.
  - by intros [sub ->].
Qed.

Lemma py_take_length n t :
  String.length (Py.take n t) = Nat.min n (String.length t).
Proof.
  revert t; induction n as [|n IH]; intros [|c t]; simpl; auto.
Qed.

Lemma bare_math_iff t :
  bare_math t = true ↔ ∃ ch, ch ≠ "."%char ∧ t = "math" +:+ String ch "".
Proof.
  unfold bare_math. split.
  - destruct (area_subarea t) as [p|] eqn:Harea; [done|].
    intros Htake%String.eqb_eq.
    pose proof (py_take_length (String.length t - 1) t) as Hlen.
    rewrite Htake in Hlen. simpl in Hlen.
    destruct t as [|c1 [|c2 [|c3 [|c4 [|c5 [|c6 t]]]]]]; simpl in Hlen; try lia.
    simpl in Htake. injection Htake as -> -> -> ->.
    exists c5. split; [|done]. intros ->. discriminate.
  - intros (ch & Hch & ->). simpl.
    apply Ascii.eqb_neq in Hch. by rewrite Hch.
Qed.

(** X2. [isMathCategory] accepts a category string exactly when one of the
    fields between its single spaces is [math.] followed by anything, or is
    [math] followed by exactly one character other than a dot (the field
    has no dot then, and the slice drops its last character). *)
Theorem isMathCategory_iff c :
  isMathCategory c = true ↔
  ∃ t, t ∈ Py.split " " c ∧
       ((∃ sub, t = "math." +:+ sub) ∨
        (∃ ch, ch ≠ "."%char ∧ t = "math" +:+ String ch "")).
Proof.
  rewrite isMathCategory_exact, existsb_exists. split.
  - intros (t & Ht%list_elem_of_In & Htest). exists t. split; [done|].
    apply orb_prop in Htest as [Harea|Hbare].
    + left. by apply has_area_math.
    + right. by apply bare_math_iff.
  - intros (t & Ht%list_elem_of_In & Hform). exists t. split; [done|].
    apply orb_true_iff. destruct Hform as [Harea|Hbare].
    + left. by apply has_area_math.
    + right. by apply bare_math_iff.
Qed.

Lemma submission_category_agrees_witness :
  submission_category [r_0002; r_0004]
  = Ok (flat_map math_subareas [r_0002; r_0004]).
Proof.
  apply (submission_category_agrees [r_0002; r_0004]).
  intros r t Hr Ht.
  repeat (apply elem_of_cons in Hr as [->|Hr]);
    [| |by apply elem_of_nil in Hr];
    repeat (apply elem_of_cons in Ht as [->|Ht]);
    reflexivity || by apply elem_of_nil in Ht.
Defined.

(** ** The loader on documents *)

Section LoaderFacts.

Context {V : Type}.
Implicit Types (doc : gmap string V) (cols : option (list string)).

Lemma doc_get_raises doc c e : doc_get doc c = Raise e → e = KeyError.
Proof. unfold doc_get. destruct (doc !! c); [done|]. by intros [= <-]. Qed.

Lemma doc_get_all doc cs :
  (∀ c, c ∈ cs → is_Some (doc !! c)) →
  series_apply (doc_get doc) cs = Ok (omap (λ col, doc !! col) cs).
Proof.
  induction cs as [|c cs IH]; intros Hall; [done|].
  rewrite series_apply_cons. unfold doc_get at 1.
  destruct (Hall c) as [v Hv]; [by left|]. csimpl. rewrite Hv.
  rewrite IH; [done|]. intros c' Hc'. apply Hall. by right.
Qed.

Lemma doc_get_missing doc cs c :
  c ∈ cs → doc !! c = None → series_apply (doc_get doc) cs = Raise KeyError.
Proof.
  intros Hc Hnone.
  destruct (series_apply_elem_raise (doc_get doc) cs c KeyError Hc) as [e He].
  { unfold doc_get. by rewrite Hnone. }
  rewrite He. apply series_apply_Raise in He as (c' & _ & Hc').
  by rewrite (doc_get_raises _ _ _ Hc').
Qed.

Lemma load_line_complete catFilter cols data doc :
  (∀ c, c ∈ columns_read cols → is_Some (doc !! c)) →
  load_line catFilter cols data doc
  = Ok (if passes catFilter doc then data ++ [row_of cols doc] else data).
Proof.
  intros Hall. unfold load_line, passes, row_of, columns_read in *.
  destruct (Hall "categories") as [cat Hcat].
  { apply elem_of_app. right. by left. }
  assert (doc_get doc "categories" = Ok cat) as Hget
    by (unfold doc_get; by rewrite Hcat).
  rewrite Hcat. destruct cols as [[|c cs]|].
  - by rewrite bind_Ok, Hget.
  - rewrite doc_get_all.
    + by rewrite !bind_Ok, Hget.
    + intros c' Hc'. apply Hall, elem_of_app. left. exact Hc'.
  - by rewrite bind_Ok, Hget.
Qed.

Lemma load_line_raises catFilter cols data doc e :
  load_line catFilter cols data doc = Raise e → e = KeyError.
Proof.
  unfold load_line.
  assert (∀ lst : frame_row V,
            Ok lst ≫= (λ lst, cat ← doc_get doc "categories";
                       Ok (if catFilter cat then data ++ [lst] else data))
            = Raise e → e = KeyError) as Htest.
  { intros lst. rewrite bind_Ok.
    destruct (doc_get doc "categories") as [cat|e'] eqn:Hget; [done|].
    intros [= <-]. by eapply doc_get_raises. }
  destruct cols as [[|c cs]|]; try apply Htest.
  destruct (series_apply (doc_get doc) (c :: cs)) as [cells|e'] eqn:Hcells.
  - rewrite bind_Ok. apply Htest.
  - intros [= <-]. apply series_apply_Raise in Hcells as (c' & _ & Hc').
    by eapply doc_get_raises.
Qed.

Lemma load_line_missing catFilter cols data doc c :
  c ∈ columns_read cols → doc !! c = None →
  load_line catFilter cols data doc = Raise KeyError.
Proof.
  intros Hc Hnone.
  destruct (load_line catFilter cols data doc) as [data'|e] eqn:Hline.
  2:{ by rewrite (load_line_raises _ _ _ _ _ Hline). }
  exfalso. unfold load_line, columns_read in *.
  apply elem_of_app in Hc as [Hc|Hc].
  - destruct cols as [[|c0 cs]|]; simpl in Hc;
      try (by apply elem_of_nil in Hc).
    by rewrite (doc_get_missing _ _ _ Hc Hnone) in Hline.
  - apply list_elem_of_singleton in Hc as ->.
    assert (doc_get doc "categories" = Raise KeyError) as Hget
      by (unfold doc_get; by rewrite Hnone).
    rewrite Hget in Hline.
    destruct cols as [[|c0 cs]|]; try discriminate.
    destruct (series_apply (doc_get doc) (c0 :: cs)); discriminate.
Qed.

Lemma load_lines_cons catFilter cols doc file data :
  load_lines catFilter cols (doc :: file) data
  = load_line catFilter cols data doc ≫= load_lines catFilter cols file.
Proof. reflexivity. Qed.

End LoaderFacts.

(** X3. When every document of the file has the category field and the
    selected columns, the loop of the loader succeeds, and the rows it
    collects for the frame are, in the order of the file, one per document
    whose category passes the filter: the selected cells in the order of
    [cols], or the whole document when [cols] is [None] or empty. *)
Theorem loadArxivData_docs_complete {V} (catFilter : V → bool) cols
    (file : list (gmap string V)) :
  (∀ doc c, doc ∈ file → c ∈ columns_read cols → is_Some (doc !! c)) →
  loadArxivData_docs catFilter cols file
  = Ok (row_of cols <$> List.filter (passes catFilter) file).
Proof.
  intros Hall. unfold loadArxivData_docs.
  enough (∀ data, load_lines catFilter cols file data
                  = Ok (data ++ (row_of cols <$> List.filter (passes catFilter) file)))
    as Hgen by apply (Hgen []).
  induction file as [|doc file IH]; intros data.
  - simpl. by rewrite app_nil_r.
  - rewrite load_lines_cons.
    rewrite load_line_complete by (intros c Hc; apply Hall; [by left|done]).
    rewrite bind_Ok, IH by (intros doc' c Hdoc'; apply Hall; by right).
    simpl. destruct (passes catFilter doc); [|done].
    by rewrite fmap_cons, <- app_assoc.
Qed.

Lemma loadArxivData_docs_complete_witness :
  loadArxivData_docs isMathCategory (Some ["id"; "title"]) [d_0002; d_0003]
  = Ok (row_of (Some ["id"; "title"]) <$>
        List.filter (passes isMathCategory) [d_0002; d_0003]).
Proof.
  apply (loadArxivData_docs_complete isMathCategory (Some ["id"; "title"])
           [d_0002; d_0003]).
  intros doc c Hdoc Hc.
  repeat (apply elem_of_cons in Hdoc as [->|Hdoc]);
    [| |by apply elem_of_nil in Hdoc];
    repeat (apply elem_of_cons in Hc as [->|Hc]);
    (by apply elem_of_nil in Hc) || (eexists; by vm_compute).
Defined.

(** X4. A document that lacks the category field or one of the selected
    columns makes the loader raise [KeyError], whether or not the filter
    would have kept it, and whatever the other documents are: the row is
    built before the category is tested, and no frame is returned. *)
Theorem loadArxivData_docs_KeyError {V} (catFilter : V → bool) cols
    (file : list (gmap string V)) doc c :
  doc ∈ file →
  c ∈ columns_read cols →
  doc !! c = None →
  loadArxivData_docs catFilter cols file = Raise KeyError.
Proof.
  intros Hdoc Hc Hnone. unfold loadArxivData_docs. generalize (@nil (frame_row V)).
  induction file as [|doc0 file IH]; intros data.
  - by apply elem_of_nil in Hdoc.
  - rewrite load_lines_cons.
    destruct (load_line catFilter cols data doc0) as [data'|e] eqn:Hline.
    + rewrite bind_Ok. apply elem_of_cons in Hdoc as [->|Hdoc]; [|by apply IH].
      by rewrite (load_line_missing _ _ _ _ _ Hc Hnone) in Hline.
    + by rewrite (load_line_raises _ _ _ _ _ Hline).
Qed.

Lemma loadArxivData_docs_KeyError_witness :
  loadArxivData_docs isMathCategory (Some ["id"; "title"])
                     [d_0002; d_no_title; d_0003]
  = Raise KeyError.
Proof.
  apply (loadArxivData_docs_KeyError isMathCategory (Some ["id"; "title"])
           [d_0002; d_no_title; d_0003] d_no_title "title").
  - right. left.
  - right. left.
  - by vm_compute.
Defined.

(** ** Genders *)

Lemma zip_fmap_r_same {A B} (g : A → B) (l : list A) :
  zip l (g <$> l) = (λ x, (x, g x)) <$> l.
Proof. induction l as [|x l IH]; [done|]. csimpl. by rewrite IH. Qed.

Lemma zip_with_fmap_same {A B C} (f : A → B → C) (g : A → B) (l : list A) :
  zip_with f l (g <$> l) = (λ x, f x (g x)) <$> l.
Proof. induction l as [|x l IH]; [done|]. csimpl. by rewrite IH. Qed.

Lemma first_token_Ok x : first_token x = Ok (hd "" (Py.split " " x)).
Proof.
  unfold first_token. pose proof (split_nonempty " " x) as Hne.
  by destruct (Py.split " " x).
Qed.

Section GenderFacts.

Variable get_gender : string → string.
Context `{TokenIteration}.

(** The dict holds the detector's answer for every name it was built
    from, and nothing else. *)
Lemma gender_dict_lookup (u : list string) t :
  NoDup u →
  gender_dict get_gender u !! t = if decide (t ∈ u) then Some (get_gender t) else None.
Proof.
  intros Hnd. unfold gender_dict. rewrite zip_fmap_r_same.
  destruct (decide (t ∈ u)) as [Hin|Hnot].
  - apply dict_fold_NoDup.
    + by rewrite <- list_fmap_compose, list_fmap_id.
    + by apply (list_elem_of_fmap_2 (λ x, (x, get_gender x))).
  - rewrite dict_fold_notin; [apply lookup_empty|].
    by rewrite <- list_fmap_compose, list_fmap_id.
Qed.

(** Looking up names that are all keys returns their values and leaves
    the dict as it is. *)
Lemma lookup_genders_present (d : gmap string string) (g : string → string) names :
  (∀ n, n ∈ names → d !! n = Some (g n)) →
  lookup_genders d names = (g <$> names, d).
Proof.
  induction names as [|n names IH]; intros Hin; [done|].
  simpl. unfold defaultdict_get. rewrite (Hin n) by left.
  rewrite IH; [done|]. intros n' Hn'. apply Hin. by right.
Qed.

Lemma first_tokens (author : list author_row) :
  series_apply first_token (first_name <$> author)
  = Ok ((λ row, hd "" (Py.split " " (first_name row))) <$> author).
Proof.
  rewrite series_apply_fmap.
  apply series_apply_pure. intros row _. apply first_token_Ok.
Qed.

Lemma gender_lookups (author : list author_row) :
  let names := (λ row, hd "" (Py.split " " (first_name row))) <$> author in
  let d := gender_dict get_gender (iterate_tokens (list_to_set names)) in
  lookup_genders d names = (get_gender <$> names, d).
Proof.
  intros names d. apply lookup_genders_present. intros n Hn.
  unfold d. rewrite gender_dict_lookup by apply iterate_tokens_NoDup.
  rewrite decide_True; [done|].
  by apply iterate_tokens_elem_of, elem_of_list_to_set.
Qed.

End GenderFacts.

Lemma to_unknown_range g :
  to_unknown g = "male" ∨ to_unknown g = "female" ∨ to_unknown g = "unknown".
Proof.
  unfold to_unknown.
  destruct (String.eqb_spec g "male") as [->|_]; [by left|].
  destruct (String.eqb_spec g "female") as [->|_]; [by right; left|].
  by right; right.
Qed.

(** X5. The gender cell never raises.  It gives every Author row, in
    place and with its other columns unchanged, the answer of the detector
    for the first space-separated field of the first name, turned into
    [unknown] when it is neither [male] nor [female]; so every gender is
    one of the three.  This holds for every order in which the set of
    names is listed: the dict built per distinct name changes nothing. *)
Theorem add_genders_per_row get_gender `{TokenIteration} author :
  add_genders get_gender author
  = Ok ((λ row, {| g_author_id := author_id row;
                   g_surname := surname row;
                   g_first_name := first_name row;
                   gender := to_unknown
                               (get_gender (hd "" (Py.split " " (first_name row)))) |})
        <$> author) ∧
  ∀ tbl row, add_genders get_gender author = Ok tbl → row ∈ tbl →
             gender row = "male" ∨ gender row = "female" ∨ gender row = "unknown".
Proof.
  assert (add_genders get_gender author
          = Ok ((λ row, {| g_author_id := author_id row;
                           g_surname := surname row;
                           g_first_name := first_name row;
                           gender := to_unknown
                             (get_gender (hd "" (Py.split " " (first_name row)))) |})
                <$> author)) as Hrows.
  { unfold add_genders. rewrite first_tokens, bind_Ok. cbv zeta.
    pose proof (gender_lookups get_gender author) as Hlook. cbv zeta in Hlook.
    rewrite Hlook. cbn [fst]. f_equal.
    by rewrite <- list_fmap_compose, zip_with_fmap_same. }
  split; [done|].
  intros tbl row Hrun Hrow. rewrite Hrows in Hrun. injection Hrun as <-.
  apply list_elem_of_fmap in Hrow as (arow & -> & _). apply to_unknown_range.
Qed.

(** X6. The detector is asked once per distinct name: the list of the
    names it is given has no repetition, and it holds exactly the first
    fields of the first names of the Author rows.  Every later lookup is
    answered by the dict, which the lookups leave unchanged: the default
    value of the [defaultdict] is never taken. *)
Theorem gender_queries_once get_gender `{TokenIteration} author :
  ∃ qs, gender_queries author = Ok qs ∧
        NoDup qs ∧
        (∀ t, t ∈ qs ↔
              ∃ row, row ∈ author ∧ hd "" (Py.split " " (first_name row)) = t) ∧
        ∀ names, series_apply first_token (first_name <$> author) = Ok names →
                 (lookup_genders (gender_dict get_gender qs) names).2
                 = gender_dict get_gender qs.
Proof.
  unfold gender_queries. rewrite first_tokens, bind_Ok.
  eexists. split; [done|]. split_and!.
  - apply iterate_tokens_NoDup.
  - intros t. rewrite iterate_tokens_elem_of, elem_of_list_to_set,
      list_elem_of_fmap. split.
    + intros (row & -> & Hrow). eauto.
    + intros (row & Hrow & <-). eauto.
  - intros names [= <-].
    pose proof (gender_lookups get_gender author) as Hlook. cbv zeta in Hlook.
    by rewrite Hlook.
Qed.

(** ** The registry: outcomes, lookups and the order of the set *)

Lemma forallb_false {A} (f : A → bool) (l : list A) :
  forallb f l = false → ∃ x, x ∈ l ∧ f x = false.
Proof.
  induction l as [|x l IH]; simpl; [done|].
  destruct (f x) eqn:Hx; simpl.
  - intros (y & Hy & Hfy)%IH. exists y. split; [by right|done].
  - intros _. exists x. split; [by left|done].
Qed.

Section RegistryFacts.

Context `{SetIteration}.

(** Both cells succeed only on well-formed author lists. *)
Lemma registry_well_formed rs names tbl :
  unique_names rs = Ok names → author names = Ok tbl →
  authors_well_formed rs = true.
Proof.
  intros [Hne ->]%unique_names_Ok Htbl.
  unfold authors_well_formed. apply forallb_forall. intros r Hr%list_elem_of_In.
  apply andb_true_intro. split.
  - apply negb_true_iff, bool_decide_eq_false.
    rewrite Forall_forall in Hne. by apply Hne.
  - apply forallb_forall. intros a Ha%list_elem_of_In. apply bool_decide_eq_true.
    assert (take 2 a ∈ iterate (observed rs)) as Hk.
    { apply iterate_elem_of, observed_elem. by exists r, a. }
    apply list_elem_of_lookup in Hk as [i Hi].
    destruct (author_lookup _ _ _ _ Htbl Hi) as (s & f & _ & Hf & _).
    apply lookup_lt_Some in Hf. rewrite length_take in Hf. lia.
Qed.

(** A row of the join table, position by position. *)
Lemma submission_author_position rs names tbl sa j q :
  unique_names rs = Ok names → author names = Ok tbl →
  submission_author (author_dict names tbl) rs = Ok sa →
  author_positions rs !! j = Some q →
  ∃ i s f, sa !! j = Some (q.1, i) ∧ take 2 q.2 = [s; f] ∧
           tbl !! i = Some {| author_id := i; surname := s; first_name := f |}.
Proof.
  intros Hnames Htbl Hsa Hq.
  rewrite (submission_author_rows _ _
             (λ k, default 0%nat (author_dict names tbl !! k))) in Hsa.
  - injection Hsa as <-.
    destruct (registry_resolves rs names tbl q Hnames Htbl)
      as (i & s & f & Hi & Hk & Hrow);
      [by eapply list_elem_of_lookup_2|].
    exists i, s, f. split_and!; [|done|done].
    rewrite list_lookup_fmap, Hq. simpl. by rewrite Hi.
  - by apply unique_names_Ok in Hnames as [? _].
  - intros q' Hq'.
    destruct (registry_resolves rs names tbl q' Hnames Htbl Hq')
      as (i & _ & _ & -> & _). done.
Qed.

Lemma submission_author_length rs names tbl sa :
  unique_names rs = Ok names → author names = Ok tbl →
  submission_author (author_dict names tbl) rs = Ok sa →
  length sa = length (author_positions rs).
Proof.
  intros Hnames Htbl Hsa.
  rewrite (submission_author_rows _ _
             (λ k, default 0%nat (author_dict names tbl !! k))) in Hsa.
  - injection Hsa as <-. by rewrite length_fmap.
  - by apply unique_names_Ok in Hnames as [? _].
  - intros q' Hq'.
    destruct (registry_resolves rs names tbl q' Hnames Htbl Hq')
      as (i & _ & _ & -> & _). done.
Qed.

End RegistryFacts.

(** X7. The two cells of the registry succeed exactly when every record
    has at least one parsed author and every parsed author has at least
    two components.  An empty author list is what makes the set
    comprehension raise ([TypeError]), and, once the keys are collected, an
    author of fewer than two components is what makes the Author frame
    raise ([IndexError]). *)
Theorem registry_outcomes `{SetIteration} rs :
  (authors_well_formed rs = true ↔
   ∃ names tbl, unique_names rs = Ok names ∧ author names = Ok tbl) ∧
  ((∃ r, r ∈ rs ∧ authors_parsed r = []) ↔ unique_names rs = Raise TypeError) ∧
  (∀ names, unique_names rs = Ok names →
     ((∃ r a, r ∈ rs ∧ a ∈ authors_parsed r ∧ (length a < 2)%nat) ↔
      author names = Raise IndexError)).
Proof.
  split_and!.
  - split.
    + intros (tbl & Hnames & Htbl)%well_formed_registry. eauto.
    + intros (names & tbl & Hnames & Htbl). by eapply registry_well_formed.
  - split.
    + intros (r & Hr & Hempty). by eapply unique_names_empty.
    + intros Hraise.
      destruct (decide (Forall (λ r, authors_parsed r ≠ []) rs)) as [Hne|Hne].
      * rewrite unique_names_nonempty in Hraise by done. discriminate.
      * apply not_Forall_Exists in Hne; [|apply _].
        apply Exists_exists in Hne as (r & Hr & Hempty).
        apply dec_stable in Hempty. eauto.
  - intros names Hnames. split.
    + intros (r & a & Hr & Ha & Hshort).
      destruct (author names) as [tbl|e] eqn:Htbl.
      * pose proof (registry_well_formed _ _ _ Hnames Htbl) as Hwf.
        apply authors_well_formed_spec in Hwf as [_ Hlen].
        specialize (Hlen r a Hr Ha). lia.
      * by rewrite (author_raises _ _ Htbl).
    + intros Hraise.
      destruct (authors_well_formed rs) eqn:Hwf.
      * apply well_formed_registry in Hwf as (tbl & Hnames' & Htbl).
        rewrite Hnames in Hnames'. injection Hnames' as ->. congruence.
      * apply forallb_false in Hwf as (r & Hr & Hbad).
        apply unique_names_Ok in Hnames as [Hne _].
        rewrite Forall_forall in Hne. specialize (Hne r Hr).
        apply andb_false_iff in Hbad as [Hbad|Hbad].
        { apply negb_false_iff, bool_decide_eq_true in Hbad. done. }
        apply forallb_false in Hbad as (a & Ha & Hlen).
        apply bool_decide_eq_false in Hlen. exists r, a. split_and!; [done|done|lia].
Qed.

(** X8. The dict of the registry is the index of the list of keys: a key
    is sent to [i] exactly when it is the key at place [i] of
    [unique_names], and a key has no entry exactly when no record lists
    it.  So two different keys never share an id. *)
Theorem author_dict_index `{SetIteration} rs names tbl k :
  unique_names rs = Ok names →
  author names = Ok tbl →
  (∀ i, author_dict names tbl !! k = Some i ↔ names !! i = Some k) ∧
  (author_dict names tbl !! k = None ↔ k ∉ observed rs).
Proof.
  intros Hnames Htbl.
  assert (∀ i, author_dict names tbl !! k = Some i ↔ names !! i = Some k)
    as Hindex.
  { intros i. split; [by apply author_dict_Some|].
    apply author_dict_lookup; [|done].
    apply unique_names_Ok in Hnames as [_ ->]. apply iterate_NoDup. }
  split; [done|].
  pose proof Hnames as [_ Heq]%unique_names_Ok.
  rewrite <- iterate_elem_of, <- Heq. split.
  - intros Hnone [i Hi]%list_elem_of_lookup. apply Hindex in Hi. congruence.
  - intros Hnot. destruct (author_dict names tbl !! k) as [i|] eqn:Hk; [|done].
    exfalso. apply Hnot. apply (author_dict_Some _ _ _ _ Htbl) in Hk.
    by eapply list_elem_of_lookup_2.
Qed.

Lemma author_dict_index_witness :
  (∀ i, author_dict (elements (observed [r_0002; r_0004]))
          [ {| author_id := 0; surname := "Theran"; first_name := "Louis" |};
            {| author_id := 1; surname := "Callan"; first_name := "David" |};
            {| author_id := 2; surname := "Streinu"; first_name := "Ileana" |} ]
          !! ["Callan"; "David"] = Some i ↔
        elements (observed [r_0002; r_0004]) !! i = Some ["Callan"; "David"]) ∧
  (author_dict (elements (observed [r_0002; r_0004]))
     [ {| author_id := 0; surname := "Theran"; first_name := "Louis" |};
       {| author_id := 1; surname := "Callan"; first_name := "David" |};
       {| author_id := 2; surname := "Streinu"; first_name := "Ileana" |} ]
     !! ["Callan"; "David"] = None ↔
   ["Callan"; "David"] ∉ observed [r_0002; r_0004]).
Proof.
  apply (author_dict_index [r_0002; r_0004]); by vm_compute.
Defined.

(** X9. The order in which the set of keys is listed changes the ids and
    nothing else: for two orders, the Author tables hold the same
    (surname, first name) pairs, one being a rearrangement of the other,
    the two Submission-Author tables have the same length, and at every
    place their rows carry the same submission and ids that name the same
    pair in their own Author table. *)
Theorem registry_order_independent (I1 I2 : SetIteration)
    rs names1 tbl1 sa1 names2 tbl2 sa2 :
  @unique_names I1 rs = Ok names1 →
  author names1 = Ok tbl1 →
  submission_author (author_dict names1 tbl1) rs = Ok sa1 →
  @unique_names I2 rs = Ok names2 →
  author names2 = Ok tbl2 →
  submission_author (author_dict names2 tbl2) rs = Ok sa2 →
  (λ row, (surname row, first_name row)) <$> tbl1
    ≡ₚ (λ row, (surname row, first_name row)) <$> tbl2 ∧
  length sa1 = length sa2 ∧
  ∀ j row1 row2, sa1 !! j = Some row1 → sa2 !! j = Some row2 →
    row1.1 = row2.1 ∧
    ∃ a1 a2, tbl1 !! row1.2 = Some a1 ∧ tbl2 !! row2.2 = Some a2 ∧
             surname a1 = surname a2 ∧ first_name a1 = first_name a2.
Proof.
  intros Hn1 Ht1 Hs1 Hn2 Ht2 Hs2.
  pose proof (submission_author_length _ _ _ _ Hn1 Ht1 Hs1) as Hl1.
  pose proof (submission_author_length _ _ _ _ Hn2 Ht2 Hs2) as Hl2.
  split_and!.
  - pose proof Hn1 as [_ He1]%unique_names_Ok.
    pose proof Hn2 as [_ He2]%unique_names_Ok.
    assert (names1 ≡ₚ names2) as Hperm.
    { subst. apply NoDup_Permutation; [apply iterate_NoDup..|].
      intros k. by rewrite !iterate_elem_of. }
    set (g := λ k : list string,
                (default "" (k !! 0%nat), default "" (k !! 1%nat))).
    assert (∀ names tbl, author names = Ok tbl →
              (∀ k, k ∈ names → (length k ≤ 2)%nat) →
              (λ row, (surname row, first_name row)) <$> tbl = g <$> names)
      as Hpairs.
    { intros names tbl Htbl Hshort.
      rewrite (author_rows names tbl Htbl Hshort), <- list_fmap_compose.
      done. }
    rewrite (Hpairs names1 tbl1), (Hpairs names2 tbl2); try done.
    + by apply fmap_Permutation.
    + intros k Hk. subst names2.
      apply iterate_elem_of in Hk. by eapply observed_length.
    + intros k Hk. subst names1.
      apply iterate_elem_of in Hk. by eapply observed_length.
  - congruence.
  - intros j row1 row2 Hj1 Hj2.
    destruct (author_positions rs !! j) as [q|] eqn:Hq.
    2:{ apply lookup_ge_None in Hq. apply lookup_lt_Some in Hj1. lia. }
    destruct (submission_author_position _ _ _ _ _ _ Hn1 Ht1 Hs1 Hq)
      as (i1 & s1 & f1 & Hr1 & Hk1 & Ha1).
    destruct (submission_author_position _ _ _ _ _ _ Hn2 Ht2 Hs2 Hq)
      as (i2 & s2 & f2 & Hr2 & Hk2 & Ha2).
    rewrite Hj1 in Hr1. rewrite Hj2 in Hr2.
    injection Hr1 as ->. injection Hr2 as ->.
    rewrite Hk1 in Hk2. injection Hk2 as <- <-.
    split; [done|]. eexists _, _. split_and!; [exact Ha1|exact Ha2|done|done].
Qed.

Lemma registry_order_independent_witness :
  (λ row, (surname row, first_name row)) <$>
    [ {| author_id := 0; surname := "Theran"; first_name := "Louis" |};
      {| author_id := 1; surname := "Callan"; first_name := "David" |};
      {| author_id := 2; surname := "Streinu"; first_name := "Ileana" |} ]
  ≡ₚ (λ row, (surname row, first_name row)) <$>
    [ {| author_id := 0; surname := "Streinu"; first_name := "Ileana" |};
      {| author_id := 1; surname := "Callan"; first_name := "David" |};
      {| author_id := 2; surname := "Theran"; first_name := "Louis" |} ] ∧
  length [("704.0002", 2%nat); ("704.0002", 0%nat);
          ("704.0004", 1%nat); ("704.0004", 0%nat)]
  = length [("704.0002", 0%nat); ("704.0002", 2%nat);
            ("704.0004", 1%nat); ("704.0004", 2%nat)] ∧
  ∀ j row1 row2,
    [("704.0002", 2%nat); ("704.0002", 0%nat);
     ("704.0004", 1%nat); ("704.0004", 0%nat)] !! j = Some row1 →
    [("704.0002", 0%nat); ("704.0002", 2%nat);
     ("704.0004", 1%nat); ("704.0004", 2%nat)] !! j = Some row2 →
    row1.1 = row2.1 ∧
    ∃ a1 a2,
      [ {| author_id := 0; surname := "Theran"; first_name := "Louis" |};
        {| author_id := 1; surname := "Callan"; first_name := "David" |};
        {| author_id := 2; surname := "Streinu"; first_name := "Ileana" |} ]
        !! row1.2 = Some a1 ∧
      [ {| author_id := 0; surname := "Streinu"; first_name := "Ileana" |};
        {| author_id := 1; surname := "Callan"; first_name := "David" |};
        {| author_id := 2; surname := "Theran"; first_name := "Louis" |} ]
        !! row2.2 = Some a2 ∧
      surname a1 = surname a2 ∧ first_name a1 = first_name a2.
Proof.
  apply (registry_order_independent elements_iteration reversed_iteration
           [r_0002; r_0004]
           (elements (observed [r_0002; r_0004])) _ _
           (reverse (elements (observed [r_0002; r_0004]))));
    by vm_compute.
Defined.

(** ** The Submission frame *)

(** X10. The Submission frame has one row per record of the filtered
    frame, in the same order, and the row of a record carries its
    identifier, title, abstract and comments unchanged. *)
Theorem submission_copies_columns parse rs tbl :
  submission parse rs = Ok tbl →
  length tbl = length rs ∧
  ∀ i r, rs !! i = Some r →
         ∃ row, tbl !! i = Some row ∧
                s_arxiv_id row = arxiv_id r ∧
                s_title row = title r ∧
                s_abstract row = abstract r ∧
                s_comments row = comments r.
Proof.
  intros Hrun. split; [by eapply submission_length|].
  intros i r Hi.
  destruct (submission_lookup _ _ _ _ _ Hrun Hi) as (d & _ & Hrow).
  eexists. split; [exact Hrow|]. done.
Qed.

Lemma submission_copies_columns_witness :
  length submission_sample = length frame_sample ∧
  ∀ i r, frame_sample !! i = Some r →
         ∃ row, submission_sample !! i = Some row ∧
                s_arxiv_id row = arxiv_id r ∧
                s_title row = title r ∧
                s_abstract row = abstract r ∧
                s_comments row = comments r.
Proof.
  apply (submission_copies_columns Timestamp.read frame_sample).
  reflexivity.
Defined.

(** ** The run: the keys of the tables *)

Section RunFacts.

Context `{SetIteration} `{MissingValues}.

(** A run that completes is made of the results of its cells on the frame
    that was read back. *)
Lemma notebook_Ok parse file t :
  notebook parse file = Ok t →
  ∃ arxiv_math sub names,
    read_csv (loadArxivData isMathCategory file) = Ok arxiv_math ∧
    submission parse arxiv_math = Ok sub ∧
    t_submission t = rederive_journal_ref sub ∧
    unique_names arxiv_math = Ok names ∧
    author names = Ok (t_author t) ∧
    submission_author (author_dict names (t_author t)) arxiv_math
    = Ok (t_submission_author t) ∧
    submission_category arxiv_math = Ok (t_submission_category t) ∧
    t_category t = category.
Proof.
  unfold notebook.
  destruct (read_csv (loadArxivData isMathCategory file))
    as [arxiv_math|e] eqn:Hread; [|discriminate].
  rewrite bind_Ok.
  destruct (submission parse arxiv_math) as [sub|e] eqn:Hsub; [|discriminate].
  rewrite bind_Ok.
  destruct (unique_names arxiv_math) as [names|e] eqn:Hnames; [|discriminate].
  rewrite bind_Ok.
  destruct (author names) as [tbl|e] eqn:Htbl; [|discriminate].
  rewrite bind_Ok.
  destruct (print_first_ids (author_dict names tbl) names)
    as [ids|e]; [|discriminate].
  rewrite bind_Ok.
  destruct (submission_author (author_dict names tbl) arxiv_math)
    as [sa|e] eqn:Hsa; [|discriminate].
  rewrite bind_Ok.
  destruct (submission_category arxiv_math) as [sc|e] eqn:Hsc; [|discriminate].
  rewrite bind_Ok. intros [= <-]. exists arxiv_math, sub, names. simpl.
  split_and!; done.
Qed.

(** A record of the frame that was read back has a token that starts
    with [math]: the filter kept it for one, and reading back leaves the
    category string as it was. *)
Lemma retained_has_math_token file arxiv_math r :
  read_csv (loadArxivData isMathCategory file) = Ok arxiv_math →
  r ∈ arxiv_math →
  ∃ t, t ∈ Py.split " " (categories r) ∧ Py.startswith "math" t = true.
Proof.
  intros [_ ->]%read_csv_Ok (r0 & -> & Hr0)%list_elem_of_fmap.
  change (categories (read_row r0)) with (categories r0).
  rewrite loadArxivData_filter, list_elem_of_In, filter_In in Hr0.
  destruct Hr0 as [_ Hmath].
  rewrite isMathCategory_exact, existsb_exists in Hmath.
  destruct Hmath as (t & Ht%list_elem_of_In & Htest). exists t. split; [done|].
  apply orb_prop in Htest as [Harea|Hbare].
  - by apply has_area_math in Harea as [sub ->].
  - by apply bare_math_iff in Hbare as (ch & _ & ->).
Qed.

End RunFacts.

(** X13. In the tables of a completed run, every submission identifier of
    the Submission-Author table and of the Submission-Category table is
    the identifier of a row of the Submission table. *)
Theorem join_ids_in_submission `{SetIteration} `{MissingValues} parse file t :
  notebook parse file = Ok t →
  (∀ row, row ∈ t_submission_author t →
          row.1 ∈ s_arxiv_id <$> t_submission t) ∧
  (∀ row, row ∈ t_submission_category t →
          row.1 ∈ s_arxiv_id <$> t_submission t).
Proof.
  intros (arxiv_math & sub & names & _ & Hsub & -> & Hnames & Htbl & Hsa & Hsc & _)
    %notebook_Ok.
  rewrite rederive_journal_ref_ids, (submission_ids _ _ _ Hsub). split.
  - intros row [j Hj]%list_elem_of_lookup.
    pose proof (submission_author_length _ _ _ _ Hnames Htbl Hsa) as Hlen.
    destruct (author_positions arxiv_math !! j) as [q|] eqn:Hq.
    2:{ apply lookup_ge_None in Hq. apply lookup_lt_Some in Hj. lia. }
    destruct (submission_author_position _ _ _ _ _ _ Hnames Htbl Hsa Hq)
      as (i & _ & _ & Hrow & _).
    rewrite Hj in Hrow. injection Hrow as ->. simpl.
    apply list_elem_of_lookup_2, author_positions_elem in Hq
      as (r & Hr & -> & _).
    by apply list_elem_of_fmap_2.
  - rewrite submission_category_rows in Hsc. injection Hsc as <-.
    intros row (p & -> & Hp)%list_elem_of_fmap. simpl.
    apply list_elem_of_In, filter_In in Hp as [Hp _].
    unfold category_tokens in Hp. apply in_flat_map in Hp as (r & Hr & Hp).
    apply list_elem_of_In, list_elem_of_fmap in Hp as (tok & -> & _).
    simpl. by apply list_elem_of_fmap_2, list_elem_of_In.
Qed.

Lemma join_ids_in_submission_witness :
  notebook Timestamp.read frame_sample = Ok t_sample ∧
  (∀ row, row ∈ t_submission_author t_sample →
          row.1 ∈ s_arxiv_id <$> t_submission t_sample) ∧
  (∀ row, row ∈ t_submission_category t_sample →
          row.1 ∈ s_arxiv_id <$> t_submission t_sample).
Proof.
  split; [by vm_compute|].
  apply (join_ids_in_submission Timestamp.read frame_sample t_sample).
  by vm_compute.
Defined.

(** X14. In the tables of a completed run, every row of the Submission
    table has at least one row in the Submission-Category table (the
    filter kept its record for a token that the category cell keeps too)
    and at least one row in the Submission-Author table. *)
Theorem every_submission_has_rows `{SetIteration} `{MissingValues}
    parse file t srow :
  notebook parse file = Ok t →
  srow ∈ t_submission t →
  (∃ c, (s_arxiv_id srow, c) ∈ t_submission_category t) ∧
  (∃ i, (s_arxiv_id srow, i) ∈ t_submission_author t).
Proof.
  intros (arxiv_math & sub & names & Hread & Hsub & -> & Hnames & Htbl & Hsa & Hsc & _)
    %notebook_Ok Hsrow.
  assert (∃ r, r ∈ arxiv_math ∧ arxiv_id r = s_arxiv_id srow) as (r & Hr & <-).
  { apply (list_elem_of_fmap_2 s_arxiv_id) in Hsrow.
    rewrite rederive_journal_ref_ids, (submission_ids _ _ _ Hsub) in Hsrow.
    apply list_elem_of_fmap in Hsrow as (r & -> & Hr). eauto. }
  split.
  - destruct (retained_has_math_token _ _ _ Hread Hr) as (tok & Htok & Hmath).
    exists (Py.slice_from tok 5).
    rewrite submission_category_rows in Hsc. injection Hsc as <-.
    apply list_elem_of_fmap. exists (arxiv_id r, tok). split; [done|].
    apply list_elem_of_In, filter_In. split; [|done].
    unfold category_tokens. apply in_flat_map. exists r.
    split; [by apply list_elem_of_In|].
    by apply list_elem_of_In, list_elem_of_fmap_2.
  - pose proof Hnames as [Hne _]%unique_names_Ok.
    rewrite Forall_forall in Hne. specialize (Hne r Hr).
    destruct (authors_parsed r) as [|a aus] eqn:Haus; [done|].
    assert ((arxiv_id r, a) ∈ author_positions arxiv_math)
      as [j Hj]%list_elem_of_lookup.
    { apply author_positions_elem. exists r. rewrite Haus.
      split_and!; [done|done|by left]. }
    destruct (submission_author_position _ _ _ _ _ _ Hnames Htbl Hsa Hj)
      as (i & _ & _ & Hrow & _).
    exists i. by eapply list_elem_of_lookup_2.
Qed.

Lemma every_submission_has_rows_witness :
  (∃ c, ("704.0004", c) ∈ t_submission_category t_sample) ∧
  (∃ i, ("704.0004", i) ∈ t_submission_author t_sample).
Proof.
  apply (every_submission_has_rows Timestamp.read frame_sample t_sample
           (row_sample "704.0004" {| year := 2007; month := 3; day := 31 |} 1)).
  - by vm_compute.
  - right. left.
Defined.
